(** * sketch-to-sky-ui: the generation-and-history hook

    A shallow embedding of [src/hooks/useModelGenerator.ts] together with
    the parts of the JavaScript platform it calls ([String.prototype.trim],
    [JSON.stringify], [JSON.parse], [localStorage]) and the part of TanStack
    Query it relies on (one query holding the history, one mutation observer
    for the generate call).

    Conventions
    - a JavaScript string is its sequence of UTF-16 code units ([jstring]);
    - a JavaScript value that can live in the history is a [json] value; a
      property holding [undefined] is modelled as an absent property (both
      read as [undefined], and [JSON.stringify] skips both);
    - a number is carried by a literal and stands for the double that
      literal is read as: [1e400] stands for Infinity, [-0] and [-1e-400]
      for negative zero. Which literals read as Infinity or as zero is
      computed exactly; [JSON.stringify] writes [null] for an infinite
      number and [0] for negative zero, and otherwise some literal of the
      same double, for which the model takes the one it carries;
    - a JavaScript computation that may throw returns an [outcome]. *)

From Stdlib Require Import List NArith ZArith Bool Lia String Ascii Arith
  DecimalString.
Import ListNotations.

Local Open Scope N_scope.

(* ================================================================== *)
(** ** JavaScript strings *)

Definition jstring := list N.

(** The code units of an ASCII literal. *)
Definition js (s : string) : jstring :=
  map N_of_ascii (list_ascii_of_string s).

Definition code_unit (c : N) : bool := c <? 65536.

Fixpoint jstring_eqb (a b : jstring) : bool :=
  match a, b with
  | [], [] => true
  | x :: a', y :: b' => (x =? y) && jstring_eqb a' b'
  | _, _ => false
  end.

(** ECMAScript WhiteSpace and LineTerminator, the code points removed by
    [String.prototype.trim]. *)
Definition is_trim_space (c : N) : bool :=
  ((9 <=? c) && (c <=? 13)) || (c =? 32) || (c =? 160) || (c =? 5760)
  || ((8192 <=? c) && (c <=? 8202)) || (c =? 8232) || (c =? 8233)
  || (c =? 8239) || (c =? 8287) || (c =? 12288) || (c =? 65279).

Fixpoint trim_start (s : jstring) : jstring :=
  match s with
  | c :: t => if is_trim_space c then trim_start t else s
  | [] => []
  end.

Definition trim (s : jstring) : jstring :=
  rev (trim_start (rev (trim_start s))).

(** [`${n}`] for a non-negative integer. *)
Definition decimal (n : N) : jstring :=
  js (NilEmpty.string_of_uint (N.to_uint n)).

(* ================================================================== *)
(** ** Thrown values and outcomes *)

Inductive exn :=
| SyntaxError                      (* JSON.parse *)
| TypeError                        (* property read on null *)
| StorageError                     (* localStorage access denied or over quota *)
| AxiosError (message : string)    (* network failure or non-2xx status *)
| Error (message : string).        (* new Error(message) *)

Inductive outcome (A : Type) :=
| Returned (a : A)
| Thrown (e : exn).
Arguments Returned {A} a.
Arguments Thrown {A} e.

Definition bind {A B} (m : outcome A) (k : A -> outcome B) : outcome B :=
  match m with
  | Returned a => k a
  | Thrown e => Thrown e
  end.

Definition try_catch {A} (body : outcome A) (handler : exn -> outcome A)
  : outcome A :=
  match body with
  | Returned a => Returned a
  | Thrown e => handler e
  end.

Notation "x <- m ;; k" := (bind m (fun x => k))
  (at level 61, m at next level, right associativity).

(* ================================================================== *)
(** ** JSON values *)

#[warnings="-register-all"]
Inductive json :=
| JNull
| JBool (b : bool)
| JNum (literal : jstring)
| JStr (s : jstring)
| JArr (items : list json)
| JObj (props : list (jstring * json)).

(** Induction on a value, with the induction hypothesis for every
    element of an array and every property value of an object. *)
Section json_induction.
Variable P : json -> Prop.
Hypothesis Pnull : P JNull.
Hypothesis Pbool : forall b, P (JBool b).
Hypothesis Pnum : forall literal, P (JNum literal).
Hypothesis Pstr : forall s, P (JStr s).
Hypothesis Parr : forall items, Forall P items -> P (JArr items).
Hypothesis Pobj :
  forall props, Forall (fun kv => P (snd kv)) props -> P (JObj props).

Fixpoint json_nested_ind (v : json) : P v :=
  match v with
  | JNull => Pnull
  | JBool b => Pbool b
  | JNum literal => Pnum literal
  | JStr s => Pstr s
  | JArr items =>
      Parr items
        ((fix all (l : list json) : Forall P l :=
            match l with
            | [] => Forall_nil P
            | x :: r => Forall_cons x (json_nested_ind x) (all r)
            end) items)
  | JObj props =>
      Pobj props
        ((fix all (l : list (jstring * json))
            : Forall (fun kv => P (snd kv)) l :=
            match l with
            | [] => Forall_nil _
            | (k, x) :: r => Forall_cons (k, x) (json_nested_ind x) (all r)
            end) props)
  end.
End json_induction.

(** [obj[k]] for an own property; [None] is [undefined]. *)
Fixpoint lookup (k : jstring) (props : list (jstring * json)) : option json :=
  match props with
  | [] => None
  | (k', v) :: rest => if jstring_eqb k k' then Some v else lookup k rest
  end.

(** [obj[k] = v]: an existing key keeps its place, a new key goes last.
    (Engines list keys that are array indices first; that reordering is
    not modelled, the hook never enumerates keys.) *)
Fixpoint obj_set (k : jstring) (v : json) (props : list (jstring * json))
  : list (jstring * json) :=
  match props with
  | [] => [(k, v)]
  | (k', v') :: rest =>
      if jstring_eqb k k' then (k', v) :: rest else (k', v') :: obj_set k v rest
  end.

Definition obj_of_members (members : list (jstring * json))
  : list (jstring * json) :=
  fold_left (fun acc kv => obj_set (fst kv) (snd kv) acc) members [].

(** *** JSON.stringify (no indentation) *)

Definition hex_digit (n : N) : N := if n <? 10 then 48 + n else 87 + n.

Definition unicode_escape (c : N) : jstring :=
  [92; 117; hex_digit (c / 4096 mod 16); hex_digit (c / 256 mod 16);
   hex_digit (c / 16 mod 16); hex_digit (c mod 16)].

Definition is_high_surrogate (c : N) : bool := (55296 <=? c) && (c <=? 56319).
Definition is_low_surrogate (c : N) : bool := (56320 <=? c) && (c <=? 57343).

Definition quote_unit (c : N) : jstring :=
  if c =? 8 then js "\b"
  else if c =? 9 then js "\t"
  else if c =? 10 then js "\n"
  else if c =? 12 then js "\f"
  else if c =? 13 then js "\r"
  else if c =? 34 then [92; 34]
  else if c =? 92 then [92; 92]
  else if (c <? 32) || is_high_surrogate c || is_low_surrogate c
       then unicode_escape c
  else [c].

(** A surrogate pair is copied, a lone surrogate is escaped. *)
Fixpoint quote_units (s : jstring) : jstring :=
  match s with
  | [] => []
  | c :: t =>
      match t with
      | d :: t' =>
          if is_high_surrogate c && is_low_surrogate d
          then c :: d :: quote_units t'
          else quote_unit c ++ quote_units t
      | [] => quote_unit c
      end
  end.

Definition quote (s : jstring) : jstring := 34 :: quote_units s ++ [34].

Fixpoint join_commas (parts : list jstring) : jstring :=
  match parts with
  | [] => []
  | [p] => p
  | p :: rest => p ++ 44 :: join_commas rest
  end.

(** *** JSON.parse *)

Definition is_json_space (c : N) : bool :=
  (c =? 32) || (c =? 9) || (c =? 10) || (c =? 13).

Fixpoint skip_ws (s : jstring) : jstring :=
  match s with
  | c :: t => if is_json_space c then skip_ws t else s
  | [] => []
  end.

Definition is_digit (c : N) : bool := (48 <=? c) && (c <=? 57).

Fixpoint span_digits (s : jstring) : jstring * jstring :=
  match s with
  | c :: t =>
      if is_digit c
      then let (ds, r) := span_digits t in (c :: ds, r)
      else ([], s)
  | [] => ([], [])
  end.

Definition scan_sign (s : jstring) : jstring * jstring :=
  match s with
  | c :: t => if c =? 45 then ([c], t) else ([], s)
  | [] => ([], [])
  end.

Definition scan_int (s : jstring) : option (jstring * jstring) :=
  match s with
  | c :: t =>
      if c =? 48 then Some ([c], t)
      else if is_digit c
           then let (ds, r) := span_digits t in Some (c :: ds, r)
           else None
  | [] => None
  end.

Definition scan_frac (s : jstring) : option (jstring * jstring) :=
  match s with
  | c :: t =>
      if c =? 46
      then match span_digits t with
           | ([], _) => None
           | (ds, r) => Some (c :: ds, r)
           end
      else Some ([], s)
  | [] => Some ([], [])
  end.

Definition scan_exp_sign (s : jstring) : jstring * jstring :=
  match s with
  | c :: t => if (c =? 43) || (c =? 45) then ([c], t) else ([], s)
  | [] => ([], [])
  end.

Definition scan_exp (s : jstring) : option (jstring * jstring) :=
  match s with
  | c :: t =>
      if (c =? 101) || (c =? 69)
      then let (sg, t1) := scan_exp_sign t in
           match span_digits t1 with
           | ([], _) => None
           | (ds, r) => Some (c :: sg ++ ds, r)
           end
      else Some ([], s)
  | [] => Some ([], [])
  end.

(** The longest prefix that is a JSON number, as written. *)
Definition scan_number (s : jstring) : option (jstring * jstring) :=
  let (sg, s1) := scan_sign s in
  match scan_int s1 with
  | None => None
  | Some (i, s2) =>
      match scan_frac s2 with
      | None => None
      | Some (f, s3) =>
          match scan_exp s3 with
          | None => None
          | Some (e, s4) => Some (sg ++ i ++ f ++ e, s4)
          end
      end
  end.

Definition hex_value (c : N) : option N :=
  if is_digit c then Some (c - 48)
  else if (97 <=? c) && (c <=? 102) then Some (c - 87)
  else if (65 <=? c) && (c <=? 70) then Some (c - 55)
  else None.

Definition hex4 (a b c d : N) : option N :=
  match hex_value a, hex_value b, hex_value c, hex_value d with
  | Some x, Some y, Some z, Some w => Some (4096 * x + 256 * y + 16 * z + w)
  | _, _, _, _ => None
  end.

Definition unescape (e : N) : option N :=
  if e =? 34 then Some 34
  else if e =? 92 then Some 92
  else if e =? 47 then Some 47
  else if e =? 98 then Some 8
  else if e =? 102 then Some 12
  else if e =? 110 then Some 10
  else if e =? 114 then Some 13
  else if e =? 116 then Some 9
  else None.

Definition cons_unit (c : N) (r : option (jstring * jstring))
  : option (jstring * jstring) :=
  match r with
  | Some (s, rest) => Some (c :: s, rest)
  | None => None
  end.

(** The characters of a string literal after its opening quote, up to
    and including the closing quote. *)
Fixpoint parse_chars (s : jstring) : option (jstring * jstring) :=
  match s with
  | [] => None
  | c :: t =>
      if c =? 34 then Some ([], t)
      else if c =? 92 then
        match t with
        | [] => None
        | e :: t1 =>
            if e =? 117 then
              match t1 with
              | a :: b :: x :: d :: t2 =>
                  match hex4 a b x d with
                  | Some u => cons_unit u (parse_chars t2)
                  | None => None
                  end
              | _ => None
              end
            else
              match unescape e with
              | Some u => cons_unit u (parse_chars t1)
              | None => None
              end
        end
      else if c <? 32 then None
      else cons_unit c (parse_chars t)
  end.

Fixpoint strip_prefix (p s : jstring) : option jstring :=
  match p, s with
  | [], _ => Some s
  | x :: p', y :: s' => if x =? y then strip_prefix p' s' else None
  | _ :: _, [] => None
  end.

Definition parse_literal (name : string) (v : json) (s : jstring)
  : option (json * jstring) :=
  match strip_prefix (js name) s with
  | Some rest => Some (v, rest)
  | None => None
  end.

(** Recursive descent; [fuel] bounds the chain of nested calls. *)
Fixpoint parse_value (fuel : nat) (s : jstring) : option (json * jstring) :=
  match fuel with
  | O => None
  | S fuel' =>
      match skip_ws s with
      | [] => None
      | c :: t =>
          if c =? 34 then
            match parse_chars t with
            | Some (str, r) => Some (JStr str, r)
            | None => None
            end
          else if c =? 91 then
            match skip_ws t with
            | d :: t' =>
                if d =? 93 then Some (JArr [], t')
                else match parse_elements fuel' t with
                     | Some (items, r) => Some (JArr items, r)
                     | None => None
                     end
            | [] => None
            end
          else if c =? 123 then
            match skip_ws t with
            | d :: t' =>
                if d =? 125 then Some (JObj [], t')
                else match parse_members fuel' t with
                     | Some (members, r) => Some (JObj (obj_of_members members), r)
                     | None => None
                     end
            | [] => None
            end
          else if c =? 110 then parse_literal "null" JNull (c :: t)
          else if c =? 116 then parse_literal "true" (JBool true) (c :: t)
          else if c =? 102 then parse_literal "false" (JBool false) (c :: t)
          else
            match scan_number (c :: t) with
            | Some (literal, r) => Some (JNum literal, r)
            | None => None
            end
      end
  end

with parse_elements (fuel : nat) (s : jstring)
  : option (list json * jstring) :=
  match fuel with
  | O => None
  | S fuel' =>
      match parse_value fuel' s with
      | Some (v, r) =>
          match skip_ws r with
          | c :: r' =>
              if c =? 44 then
                match parse_elements fuel' r' with
                | Some (items, r'') => Some (v :: items, r'')
                | None => None
                end
              else if c =? 93 then Some ([v], r')
              else None
          | [] => None
          end
      | None => None
      end
  end

with parse_members (fuel : nat) (s : jstring)
  : option (list (jstring * json) * jstring) :=
  match fuel with
  | O => None
  | S fuel' =>
      match skip_ws s with
      | q :: t =>
          if q =? 34 then
            match parse_chars t with
            | Some (k, r) =>
                match skip_ws r with
                | c :: r1 =>
                    if c =? 58 then
                      match parse_value fuel' r1 with
                      | Some (v, r2) =>
                          match skip_ws r2 with
                          | c' :: r3 =>
                              if c' =? 44 then
                                match parse_members fuel' r3 with
                                | Some (members, r4) => Some ((k, v) :: members, r4)
                                | None => None
                                end
                              else if c' =? 125 then Some ([(k, v)], r3)
                              else None
                          | [] => None
                          end
                      | None => None
                      end
                    else None
                | [] => None
                end
            | None => None
            end
          else None
      | [] => None
      end
  end.

Definition JSON_parse (text : jstring) : outcome json :=
  match parse_value (S (List.length text)) text with
  | Some (v, r) =>
      match skip_ws r with
      | [] => Returned v
      | _ :: _ => Thrown SyntaxError
      end
  | None => Thrown SyntaxError
  end.


(** *** Numbers *)

(** The whole text is one JSON number. *)
Definition number_literal (literal : jstring) : bool :=
  match scan_number literal with
  | Some (l, []) => true
  | _ => false
  end.

Definition digits_value (digits : jstring) : N :=
  fold_left (fun acc c => 10 * acc + (c - 48)) digits 0.

(** The value of an exponent part [e], [e+12], [E-3]; 0 when there is
    none. *)
Definition exponent_value (e : jstring) : Z :=
  match e with
  | [] => 0%Z
  | _ :: rest =>
      let (sg, digits) := scan_exp_sign rest in
      match sg with
      | [] => Z.of_N (digits_value digits)
      | c :: _ =>
          if c =? 45 then (- Z.of_N (digits_value digits))%Z
          else Z.of_N (digits_value digits)
      end
  end.

(** A literal as sign, digits [n] and power of ten [k]: it is written
    for plus or minus [n * 10^k]. *)
Definition literal_parts (literal : jstring) : option (bool * Z * Z) :=
  let (sg, s1) := scan_sign literal in
  match scan_int s1 with
  | None => None
  | Some (i, s2) =>
      match scan_frac s2 with
      | None => None
      | Some (f, s3) =>
          match scan_exp s3 with
          | None => None
          | Some (e, _) =>
              Some (match sg with [] => false | _ :: _ => true end,
                    Z.of_N (digits_value (i ++ tl f)),
                    (exponent_value e - Z.of_nat (List.length (tl f)))%Z)
          end
      end
  end.

(** Rounding to the nearest double, ties to even, gives Infinity from
    [2^1024 - 2^970] on. *)
Definition reads_as_infinite (literal : jstring) : bool :=
  match literal_parts literal with
  | Some (_, n, k) =>
      if (0 <=? k)%Z
      then (2 ^ 1024 - 2 ^ 970 <=? n * 10 ^ k)%Z
      else ((2 ^ 1024 - 2 ^ 970) * 10 ^ (- k) <=? n)%Z
  | None => false
  end.

(** Rounding to the nearest double gives zero up to [2^-1075]. *)
Definition reads_as_zero (literal : jstring) : bool :=
  match literal_parts literal with
  | Some (_, n, k) =>
      (n =? 0)%Z || ((k <? 0)%Z && (n * 2 ^ 1075 <=? 10 ^ (- k))%Z)
  | None => false
  end.

Definition reads_as_negative_zero (literal : jstring) : bool :=
  match literal_parts literal with
  | Some (negative, _, _) => negative && reads_as_zero literal
  | None => false
  end.

(** *** JSON.stringify (values) *)

Fixpoint stringify (v : json) : jstring :=
  match v with
  | JNull => js "null"
  | JBool true => js "true"
  | JBool false => js "false"
  | JNum literal =>
      if number_literal literal && negb (reads_as_infinite literal)
      then if reads_as_negative_zero literal then js "0" else literal
      else js "null"
  | JStr s => quote s
  | JArr items => 91 :: join_commas (map stringify items) ++ [93]
  | JObj props =>
      123 :: join_commas
               (map (fun kv => match kv with
                               | (k, x) => quote k ++ 58 :: stringify x
                               end) props) ++ [125]
  end.

Definition JSON_stringify (v : json) : jstring := stringify v.

(* ================================================================== *)
(** ** Property reads and truthiness *)

(** [v?.k] for the keys the hook reads ([id], [url], [thumbnailUrl],
    [metadata]): none of them is a built-in property of a string, number,
    boolean or array, so only an object can hold them. *)
Definition optional_get (v : json) (k : jstring) : option json :=
  match v with
  | JObj props => lookup k props
  | _ => None
  end.

(** [v.k]: reading a property of [null] throws. *)
Definition get (v : json) (k : jstring) : outcome (option json) :=
  match v with
  | JNull => Thrown TypeError
  | JObj props => Returned (lookup k props)
  | _ => Returned None
  end.

(** [!!v]; a number is falsy when the double it stands for is zero. *)
Definition truthy (v : option json) : bool :=
  match v with
  | None => false
  | Some JNull => false
  | Some (JBool b) => b
  | Some (JNum literal) => negb (reads_as_zero literal)
  | Some (JStr s) => match s with [] => false | _ :: _ => true end
  | Some (JArr _) => true
  | Some (JObj _) => true
  end.

(** [a === b] where [b] is a string or null. *)
Definition strict_eq (a : option json) (b : option jstring) : bool :=
  match a, b with
  | Some (JStr x), Some y => jstring_eqb x y
  | Some JNull, None => true
  | _, _ => false
  end.

(** An object literal: a property whose value is [undefined] is dropped. *)
Fixpoint object_literal (props : list (jstring * option json))
  : list (jstring * json) :=
  match props with
  | [] => []
  | (k, Some v) :: rest => (k, v) :: object_literal rest
  | (_, None) :: rest => object_literal rest
  end.

(** The own properties copied by [{...v}] when [v] is an object. *)
Definition own_props (v : json) : list (jstring * json) :=
  match v with
  | JObj props => props
  | _ => []
  end.

(* ================================================================== *)
(** ** window.localStorage, one key *)

Definition HISTORY_KEY : string := "sketch-to-sky::history".

Record Window := {
  window_defined : bool;      (* typeof window !== 'undefined' *)
  getItem_works : bool;       (* false: getItem throws *)
  setItem_works : bool;       (* false: setItem throws *)
  stored : option jstring     (* the value under HISTORY_KEY, if any *)
}.

Definition getItem (w : Window) : outcome (option jstring) :=
  if getItem_works w then Returned (stored w) else Thrown StorageError.

Definition setItem (w : Window) (value : jstring) : outcome Window :=
  if setItem_works w
  then Returned {| window_defined := window_defined w;
                   getItem_works := getItem_works w;
                   setItem_works := setItem_works w;
                   stored := Some value |}
  else Thrown StorageError.

Inductive warning :=
| ParseWarning (error : exn)      (* 'Failed to parse generation history' *)
| PersistWarning (error : exn).   (* 'Failed to persist generation history' *)

(* ================================================================== *)
(** ** useModelGenerator.ts *)

(** Returns the history and what was written to [console.warn]. *)
Definition readHistory (w : Window) : outcome (list json * list warning) :=
  if negb (window_defined w) then Returned ([], [])
  else
    try_catch
      (data <- getItem w ;;
       match data with
       | None => Returned ([], [])
       | Some [] => Returned ([], [])
       | Some text =>
           parsed <- JSON_parse text ;;
           Returned (match parsed with
                     | JArr items => items
                     | _ => []
                     end, [])
       end)
      (fun error => Returned ([], [ParseWarning error])).

Definition persistHistory (w : Window) (entries : list json)
  : outcome (Window * list warning) :=
  if negb (window_defined w) then Returned (w, [])
  else
    try_catch
      (w' <- setItem w (JSON_stringify (JArr entries)) ;;
       Returned (w', []))
      (fun error => Returned (w, [PersistWarning error])).

(** How the axios promise settles. *)
Inductive response :=
| Resolved (data : json)
| Rejected (error : exn).

Definition EmptyPrompt : exn :=
  Error "Prompt is empty. Please describe the aircraft concept you want to generate.".

Definition EmptyResponse : exn :=
  Error "The AI service returned no model URL.".

(** [mutationFn] up to its [await]: the text posted, unless it throws. *)
Definition mutationFn_request (prompt : jstring) : outcome jstring :=
  match trim prompt with
  | [] => Thrown EmptyPrompt
  | _ :: _ => Returned (trim prompt)
  end.

(** [mutationFn] from its [await] on. *)
Definition mutationFn_result (prompt : jstring) (r : response) : outcome json :=
  match r with
  | Rejected error => Thrown error
  | Resolved data =>
      if negb (truthy (optional_get data (js "url")))
      then Thrown EmptyResponse
      else Returned (JObj (obj_set (js "prompt") (JStr (trim prompt))
                                   (own_props data)))
  end.

(** What [onSuccess] reads from its surroundings. *)
Record Clock := {
  randomUUID : option jstring;   (* crypto.randomUUID(), where crypto has it *)
  Date_now : N;                  (* Date.now() *)
  toISOString : jstring          (* new Date().toISOString() *)
}.

Definition entry_id (clock : Clock) : jstring :=
  match randomUUID clock with
  | Some uuid => uuid
  | None => decimal (Date_now clock)
  end.

Definition new_entry (clock : Clock) (result : json) (prompt : jstring) : json :=
  JObj (object_literal
          [ (js "id", Some (JStr (entry_id clock)));
            (js "prompt", Some (JStr prompt));
            (js "url", optional_get result (js "url"));
            (js "thumbnailUrl", optional_get result (js "thumbnailUrl"));
            (js "metadata", optional_get result (js "metadata"));
            (js "createdAt", Some (JStr (toISOString clock))) ]).

(** The state of one mutation in the mutation cache. *)
Inductive status :=
| Pending
| Success (data : json)
| Failure (error : exn).

Record mutation := {
  variables : jstring;
  mutation_status : status
}.

Record state := {
  window : Window;
  queryData : option (list json);   (* query ['model-history'] *)
  selectedId : option jstring;      (* useState<string | null>(null) *)
  mutations : list mutation;        (* mutation cache; a call's id is its index *)
  currentMutation : option nat;     (* the call the mutation observer follows *)
  posted : list jstring;            (* the texts posted to /generate *)
  console : list warning
}.

Definition with_status (ms : list mutation) (id : nat) (s : status)
  : list mutation :=
  match nth_error ms id with
  | Some m => firstn id ms ++ {| variables := variables m; mutation_status := s |}
                :: skipn (S id) ms
  | None => ms
  end.

(** First render: [initialData: readHistory]; with [staleTime: Infinity]
    the query function is not run again. *)
Definition mount (w : Window) : outcome state :=
  r <- readHistory w ;;
  Returned {| window := w;
              queryData := Some (fst r);
              selectedId := None;
              mutations := [];
              currentMutation := None;
              posted := [];
              console := snd r |}.

(** [onSuccess(result, prompt)]: the second argument is the mutation's
    variables, the prompt as passed to [generateModel]. *)
Definition onSuccess (st : state) (clock : Clock) (result : json)
  (prompt : jstring) : outcome state :=
  let entry := new_entry clock result prompt in
  let next := firstn 20 (entry :: match queryData st with
                                  | Some prev => prev
                                  | None => []
                                  end) in
  r <- persistHistory (window st) next ;;
  Returned {| window := fst r;
              queryData := Some next;
              selectedId := Some (entry_id clock);
              mutations := mutations st;
              currentMutation := currentMutation st;
              posted := posted st;
              console := console st ++ snd r |}.

Definition record_call (st : state) (m : mutation) (texts : list jstring)
  : state :=
  {| window := window st;
     queryData := queryData st;
     selectedId := selectedId st;
     mutations := mutations st ++ [m];
     currentMutation := Some (List.length (mutations st));
     posted := posted st ++ texts;
     console := console st |}.

Definition set_status (st : state) (id : nat) (s : status) : state :=
  {| window := window st;
     queryData := queryData st;
     selectedId := selectedId st;
     mutations := with_status (mutations st) id s;
     currentMutation := currentMutation st;
     posted := posted st;
     console := console st |}.

(** [generateModel(prompt)] up to the [await] inside [mutationFn]:
    [mutateAsync] adds a mutation to the cache, the observer leaves the
    call it followed and follows the new one, and [mutationFn] either
    throws or posts the trimmed text. *)
Definition generateModel (st : state) (prompt : jstring) : state :=
  match mutationFn_request prompt with
  | Returned text =>
      record_call st {| variables := prompt; mutation_status := Pending |} [text]
  | Thrown error =>
      record_call st {| variables := prompt; mutation_status := Failure error |} []
  end.

(** The axios promise of call [id] settles: the rest of [mutationFn] runs
    and, when it returns, [onSuccess]. Handlers given to [useMutation]
    itself (unlike those given to [mutate]) run for every call, whether
    or not the observer still follows it; the hook adds no check of its
    own. *)
Definition settle (st : state) (id : nat) (r : response) (clock : Clock)
  : outcome state :=
  match nth_error (mutations st) id with
  | Some m =>
      match mutation_status m with
      | Pending =>
          match mutationFn_result (variables m) r with
          | Returned result =>
              st' <- onSuccess st clock result (variables m) ;;
              Returned (set_status st' id (Success result))
          | Thrown error => Returned (set_status st id (Failure error))
          end
      | _ => Returned st
      end
  | None => Returned st
  end.

Definition selectModel (st : state) (id : jstring) : state :=
  {| window := window st;
     queryData := queryData st;
     selectedId := Some id;
     mutations := mutations st;
     currentMutation := currentMutation st;
     posted := posted st;
     console := console st |}.

Definition clearHistory (st : state) : outcome state :=
  r <- persistHistory (window st) [] ;;
  Returned {| window := fst r;
              queryData := Some [];
              selectedId := None;
              mutations := mutations st;
              currentMutation := currentMutation st;
              posted := posted st;
              console := console st ++ snd r |}.

(** [mutation.reset]: the observer follows no call any more. *)
Definition resetError (st : state) : state :=
  {| window := window st;
     queryData := queryData st;
     selectedId := selectedId st;
     mutations := mutations st;
     currentMutation := None;
     posted := posted st;
     console := console st |}.

(** *** What the hook returns *)

Definition history (st : state) : list json :=
  match queryData st with
  | Some data => data
  | None => []
  end.

(** [history.find((item) => item.id === selectedId)] *)
Fixpoint find_selected (h : list json) (sel : option jstring)
  : outcome (option json) :=
  match h with
  | [] => Returned None
  | item :: rest =>
      i <- get item (js "id") ;;
      if strict_eq i sel then Returned (Some item) else find_selected rest sel
  end.

Definition head_or_null (h : list json) : option json :=
  match h with
  | [] => None
  | JNull :: _ => None
  | item :: _ => Some item
  end.

(** [find(...) ?? history[0] ?? null]; [None] is [null]. *)
Definition selectedModel_of (h : list json) (sel : option jstring)
  : outcome (option json) :=
  found <- find_selected h sel ;;
  Returned (match found with
            | Some item => Some item
            | None => head_or_null h
            end).

Definition selectedModel (st : state) : outcome (option json) :=
  selectedModel_of (history st) (selectedId st).

Definition current_status (st : state) : option status :=
  match currentMutation st with
  | Some id => option_map mutation_status (nth_error (mutations st) id)
  | None => None
  end.

(** [mutation.isPending] *)
Definition isGenerating (st : state) : bool :=
  match current_status st with
  | Some Pending => true
  | _ => false
  end.

(** [mutation.error instanceof Error ? mutation.error : null]; every
    value of [exn] is an instance of [Error]. *)
Definition error (st : state) : option exn :=
  match current_status st with
  | Some (Failure e) => Some e
  | _ => None
  end.

(** *** Runs of the hook *)

Inductive event :=
| GenerateModel (prompt : jstring)
| Settle (id : nat) (r : response) (clock : Clock)
| SelectModel (id : jstring)
| ClearHistory
| ResetError.

Definition step (st : state) (e : event) : outcome state :=
  match e with
  | GenerateModel prompt => Returned (generateModel st prompt)
  | Settle id r clock => settle st id r clock
  | SelectModel id => Returned (selectModel st id)
  | ClearHistory => clearHistory st
  | ResetError => Returned (resetError st)
  end.

Fixpoint run (st : state) (events : list event) : outcome state :=
  match events with
  | [] => Returned st
  | e :: rest => st' <- step st e ;; run st' rest
  end.

(** The id of the call a [GenerateModel] event starts. *)
Definition next_call (st : state) : nat := List.length (mutations st).

(* ================================================================== *)
(** ** types.ts *)

Module Types.

Record GeneratedModel := {
  id : jstring;
  prompt : jstring;
  url : jstring;
  thumbnailUrl : option jstring;
  metadata : option (list (jstring * json));
  createdAt : jstring
}.

End Types.

(** A [GeneratedModel] as the value held in the history. *)
Definition model_value (m : Types.GeneratedModel) : json :=
  JObj (object_literal
          [ (js "id", Some (JStr (Types.id m)));
            (js "prompt", Some (JStr (Types.prompt m)));
            (js "url", Some (JStr (Types.url m)));
            (js "thumbnailUrl", option_map JStr (Types.thumbnailUrl m));
            (js "metadata", option_map JObj (Types.metadata m));
            (js "createdAt", Some (JStr (Types.createdAt m))) ]).

(** The ids of a history, element by element. *)
Definition ids (h : list json) : list (option json) :=
  map (fun item => optional_get item (js "id")) h.

(** *** Values that JavaScript can hold and JSON can carry *)

Fixpoint distinct (keys : list jstring) : bool :=
  match keys with
  | [] => true
  | k :: rest => negb (existsb (jstring_eqb k) rest) && distinct rest
  end.

(** JSON data that JavaScript can hold and JSON can carry: strings of
    code units, objects with keys all different, numbers that are
    finite and not negative zero. *)
Fixpoint well_formed (v : json) : bool :=
  match v with
  | JNull => true
  | JBool _ => true
  | JNum literal =>
      number_literal literal && negb (reads_as_infinite literal)
      && negb (reads_as_negative_zero literal)
  | JStr s => forallb code_unit s
  | JArr items => forallb well_formed items
  | JObj props =>
      forallb (fun kv => match kv with
                         | (k, x) => forallb code_unit k && well_formed x
                         end) props
      && distinct (map fst props)
  end.

(** What may follow a number in a text without reading on as part of
    it. *)
Definition number_end (rest : jstring) : bool :=
  match rest with
  | [] => true
  | c :: _ => negb (is_digit c || (c =? 46) || (c =? 101) || (c =? 69))
  end.

(** The characters a value can start with. *)
Definition value_start (c : N) : bool :=
  (c =? 34) || (c =? 91) || (c =? 123) || (c =? 110) || (c =? 116)
  || (c =? 102) || (c =? 45) || is_digit c.

(** A bound on the nesting of parser calls a value needs. *)
Fixpoint size (v : json) : nat :=
  match v with
  | JArr items => S (list_sum (map size items) + List.length items)
  | JObj props =>
      S (list_sum (map (fun kv => match kv with (_, x) => size x end) props)
         + List.length props)
  | _ => 1
  end.

(** The statement of [stringify_reads_back]: the text of [v], followed by
    anything that does not continue a number, is read back as [v]. *)
Definition reads_back (v : json) : Prop :=
  well_formed v = true ->
  forall fuel rest,
    (size v <= fuel)%nat ->
    number_end rest = true ->
    parse_value fuel (stringify v ++ rest) = Some (v, rest).

(** A parser's result with fuel [fuel] consumes input and is also its
    result with any fuel from the number of characters consumed on. *)
Definition consumes {A} (parse : nat -> jstring -> option (A * jstring))
  (fuel : nat) : Prop :=
  forall s a r,
    parse fuel s = Some (a, r) ->
    (List.length r < List.length s)%nat
    /\ forall fuel',
         (List.length s - List.length r <= fuel')%nat ->
         parse fuel' s = Some (a, r).

Definition well_formed_model (m : Types.GeneratedModel) : bool :=
  well_formed (model_value m).

(** A generate call that runs to its end before anything else happens:
    [generateModel(prompt)], then the response. *)
Definition generate (st : state) (prompt : jstring) (r : response)
  (clock : Clock) : outcome state :=
  settle (generateModel st prompt) (next_call st) r clock.

(** A call that succeeds: the prompt is not blank and the response has a
    truthy [url]. *)
Definition succeeds (prompt : jstring) (data : json) : Prop :=
  trim prompt <> [] /\ truthy (optional_get data (js "url")) = true.

Fixpoint generate_all (st : state) (calls : list (jstring * json * Clock))
  : outcome state :=
  match calls with
  | [] => Returned st
  | (prompt, data, clock) :: rest =>
      st' <- generate st prompt (Resolved data) clock ;;
      generate_all st' rest
  end.

(** The selection rule in the words of the specification: the element
    whose id is the selected id when there is one, otherwise the head of
    the history, otherwise nothing. *)
Definition selected_by_rule (ms : list Types.GeneratedModel)
  (sel : option jstring) : option Types.GeneratedModel :=
  match sel with
  | Some s =>
      match find (fun m => jstring_eqb (Types.id m) s) ms with
      | Some m => Some m
      | None => hd_error ms
      end
  | None => hd_error ms
  end.

(** Does some element of the history have the string [i] as its id? *)
Definition has_id (h : list json) (i : jstring) : bool :=
  existsb (fun item => strict_eq (optional_get item (js "id")) (Some i)) h.

(** Along the run, every response arrives with an id for its record
    that no element of the history has at that moment. *)
Fixpoint fresh_ids (st : state) (events : list event) : bool :=
  match events with
  | [] => true
  | e :: rest =>
      match e with
      | Settle _ _ clock => negb (has_id (history st) (entry_id clock))
      | _ => true
      end
      && match step st e with
         | Returned st' => fresh_ids st' rest
         | Thrown _ => true
         end
  end.

(** The events that write the history: a clear, and a response that can
    be a success. *)
Definition rewrites_history (e : event) : bool :=
  match e with
  | ClearHistory => true
  | Settle _ (Resolved data) _ => truthy (optional_get data (js "url"))
  | _ => false
  end.

(** *** Notions used by the further properties *)

(** The store holds the text of the current history. *)
Definition in_sync (st : state) : Prop :=
  stored (window st) = Some (JSON_stringify (JArr (history st))).

(** The record a successful call creates. *)
Definition entry_of (call : jstring * json * Clock) : json :=
  match call with
  | (prompt, data, clock) =>
      new_entry clock
        (JObj (obj_set (js "prompt") (JStr (trim prompt)) (own_props data)))
        prompt
  end.

(** The texts a run posts to the service, in order. *)
Definition posts_of (events : list event) : list jstring :=
  flat_map (fun e => match e with
                     | GenerateModel prompt =>
                         match trim prompt with
                         | [] => []
                         | _ :: _ => [trim prompt]
                         end
                     | _ => []
                     end) events.

(** Not empty, and no white space at either end. *)
Definition tidy (t : jstring) : bool :=
  match t with
  | [] => false
  | c :: _ => negb (is_trim_space c) && negb (is_trim_space (last t c))
  end.

(** An event that brings in only strings of code units and JSON data
    that JSON can carry. *)
Definition clean_event (e : event) : bool :=
  match e with
  | GenerateModel prompt => forallb code_unit prompt
  | Settle _ (Resolved data) clock =>
      well_formed data && forallb code_unit (entry_id clock)
      && forallb code_unit (toISOString clock)
  | _ => true
  end.

(** A state whose store works, whose history and pending prompts are
    JSON data, and whose store reads back as its history. *)
Definition reloadable (st : state) : Prop :=
  window_defined (window st) = true
  /\ getItem_works (window st) = true
  /\ setItem_works (window st) = true
  /\ forallb well_formed (history st) = true
  /\ forallb (fun m => forallb code_unit (variables m)) (mutations st) = true
  /\ exists warnings,
       readHistory (window st) = Returned (history st, warnings).

(* ================================================================== *)
(** ** components/PromptInput.tsx and App.tsx *)

Module Page.

Record page := {
  text : jstring;           (* PromptInput: useState('') *)
  loading : bool;           (* PromptInput: useState(false) *)
  modelUrl : option json;   (* App: useState(null); [None] is undefined *)
  in_flight : list jstring; (* the posts not yet answered *)
  sent : list jstring;      (* every text posted to /generate *)
  errors : list exn         (* console.error *)
}.

Definition start : page :=
  {| text := [];
     loading := false;
     modelUrl := Some JNull;
     in_flight := [];
     sent := [];
     errors := [] |}.

(** [onChange]: [setText(e.target.value)] *)
Definition setText (p : page) (value : jstring) : page :=
  {| text := value;
     loading := loading p;
     modelUrl := modelUrl p;
     in_flight := in_flight p;
     sent := sent p;
     errors := errors p |}.

(** [handleSubmit] up to its [await]: the text is posted as it stands. *)
Definition handleSubmit (p : page) : page :=
  match trim (text p) with
  | [] => p
  | _ :: _ =>
      {| text := text p;
         loading := true;
         modelUrl := modelUrl p;
         in_flight := in_flight p ++ [text p];
         sent := sent p ++ [text p];
         errors := errors p |}
  end.

(** The button is disabled while [loading]. *)
Definition click (p : page) : page :=
  if loading p then p else handleSubmit p.

Definition without {A} (l : list A) (i : nat) : list A :=
  firstn i l ++ skipn (S i) l.

(** [handleSubmit] from its [await] on, for the post at index [i]:
    [onResult(res.data.url)] is [setModelUrl], a throw goes to
    [console.error], and [finally] ends the loading. *)
Definition respond (p : page) (i : nat) (r : response) : page :=
  match nth_error (in_flight p) i with
  | None => p
  | Some _ =>
      let tried :=
        match r with
        | Resolved data => get data (js "url")
        | Rejected err => Thrown err
        end in
      {| text := text p;
         loading := false;
         modelUrl := match tried with
                     | Returned u => u
                     | Thrown _ => modelUrl p
                     end;
         in_flight := without (in_flight p) i;
         sent := sent p;
         errors := match tried with
                   | Returned _ => errors p
                   | Thrown err => errors p ++ [err]
                   end |}
  end.

(** [{modelUrl && <ModelViewer modelUrl={modelUrl} />}] *)
Definition viewer (p : page) : option json :=
  if truthy (modelUrl p) then modelUrl p else None.

Inductive action :=
| Change (value : jstring)
| Click
| Respond (i : nat) (r : response).

Definition act (p : page) (a : action) : page :=
  match a with
  | Change value => setText p value
  | Click => click p
  | Respond i r => respond p i r
  end.

Definition play (p : page) (actions : list action) : page :=
  fold_left act actions p.

End Page.

(** The events after which the observer follows another call or none. *)
Definition moves_observer (e : event) : bool :=
  match e with
  | GenerateModel _ => true
  | ResetError => true
  | _ => false
  end.

(** *** Sample data *)

Definition browser (content : option jstring) : Window :=
  {| window_defined := true;
     getItem_works := true;
     setItem_works := true;
     stored := content |}.

(** The hook after its first render over history [h]. *)
Definition started (w : Window) (h : list json) : state :=
  {| window := w;
     queryData := Some h;
     selectedId := None;
     mutations := [];
     currentMutation := None;
     posted := [];
     console := [] |}.

Definition clock_uuid (uuid : string) : Clock :=
  {| randomUUID := Some (js uuid);
     Date_now := 1762041600000;
     toISOString := js "2025-11-02T00:00:00.000Z" |}.

(** A page without [crypto.randomUUID]. *)
Definition clock_ms (ms : N) : Clock :=
  {| randomUUID := None;
     Date_now := ms;
     toISOString := js "2025-11-02T00:00:00.000Z" |}.

Definition glb (name : string) : json := JObj [(js "url", JStr (js name))].

Definition sample_model (i : string) : Types.GeneratedModel :=
  {| Types.id := js i;
     Types.prompt := js "biplane wing";
     Types.url := js "a.glb";
     Types.thumbnailUrl := None;
     Types.metadata := None;
     Types.createdAt := js "2025-11-02T00:00:00.000Z" |}.

(** A record with a thumbnail and metadata: a fraction, a nested array,
    a quotation mark, a line feed and a surrogate pair. *)
Definition rich_model : Types.GeneratedModel :=
  {| Types.id := js "m2";
     Types.prompt := js "tail fin";
     Types.url := js "https://cdn.example/t.glb";
     Types.thumbnailUrl := Some (js "t.png");
     Types.metadata :=
       Some [ (js "span", JNum (js "12.5e-1"));
              (js "tags", JArr [JStr (js "fin"); JNull; JBool true; JObj []]);
              (js "note", JStr [97; 34; 10; 55357; 56832]) ];
     Types.createdAt := js "2025-11-02T00:00:01.000Z" |}.

(** The record a step creates, if it creates one: the response to a
    pending call that [mutationFn] then accepts. *)
Definition creates (st : state) (e : event) : list json :=
  match e with
  | Settle id r clock =>
      match nth_error (mutations st) id with
      | Some m =>
          match mutation_status m with
          | Pending =>
              match mutationFn_result (variables m) r with
              | Returned result => [new_entry clock result (variables m)]
              | Thrown _ => []
              end
          | _ => []
          end
      | None => []
      end
  | _ => []
  end.

(** The records a run creates, newest first. *)
Fixpoint created (st : state) (events : list event) : list json :=
  match events with
  | [] => []
  | e :: rest =>
      match step st e with
      | Returned st' => created st' rest ++ creates st e
      | Thrown _ => []
      end
  end.

(** A history with new records put in front: untouched when there is
    none, cut to 20 otherwise. *)
Definition with_new (news h : list json) : list json :=
  match news with
  | [] => h
  | _ :: _ => firstn 20 (news ++ h)
  end.

(** A record whose metadata holds a number too large for a double. *)
Definition overflow_model : Types.GeneratedModel :=
  {| Types.id := js "m3";
     Types.prompt := js "long wing";
     Types.url := js "l.glb";
     Types.thumbnailUrl := None;
     Types.metadata := Some [(js "span", JNum (js "1e400"))];
     Types.createdAt := js "2025-11-02T00:00:02.000Z" |}.

(** A string literal in a stored text. *)
Definition quoted (s : string) : jstring := 34 :: js s ++ [34].

(** The stored text [{"id":"x"}]. *)
Definition text_id_x : jstring :=
  js "{" ++ quoted "id" ++ js ":" ++ quoted "x" ++ js "}".



(* ================================================================== *)
(** * Properties *)

Local Open Scope nat_scope.

(** ** Lists of mutations *)

Lemma nth_error_snoc {A} (l : list A) (x : A) :
  nth_error (l ++ [x]) (List.length l) = Some x.
Proof.
  induction l as [|a l IH]; simpl; auto.
Qed.

Lemma nth_error_snoc_lt {A} (l : list A) (x : A) (i : nat) :
  i < List.length l -> nth_error (l ++ [x]) i = nth_error l i.
Proof.
  intros Hi. now rewrite nth_error_app1.
Qed.

Lemma with_status_same ms id s m :
  nth_error ms id = Some m ->
  nth_error (with_status ms id s) id
  = Some {| variables := variables m; mutation_status := s |}.
Proof.
  intros Hm. unfold with_status. rewrite Hm.
  assert (Hlen : id < List.length ms) by (apply nth_error_Some; congruence).
  rewrite nth_error_app2; rewrite length_firstn, Nat.min_l by lia; [|lia].
  now rewrite Nat.sub_diag.
Qed.

Lemma with_status_other ms id s j :
  j <> id -> nth_error (with_status ms id s) j = nth_error ms j.
Proof.
  intros Hj. unfold with_status.
  destruct (nth_error ms id) as [m|] eqn:Hm; [|reflexivity].
  assert (Hlen : id < List.length ms) by (apply nth_error_Some; congruence).
  destruct (Nat.lt_ge_cases j id) as [Hlt|Hge].
  - rewrite nth_error_app1 by (rewrite length_firstn; lia).
    now rewrite nth_error_firstn, (proj2 (Nat.ltb_lt j id)) by assumption.
  - rewrite nth_error_app2 by (rewrite length_firstn; lia).
    rewrite length_firstn, Nat.min_l by lia.
    destruct (j - id) as [|k] eqn:Hk; [lia|].
    change (nth_error (skipn (S id) ms) k = nth_error ms j).
    rewrite nth_error_skipn. f_equal. lia.
Qed.

(** ** persistHistory and onSuccess always return *)

Lemma persistHistory_returns w entries :
  exists w' ws, persistHistory w entries = Returned (w', ws).
Proof.
  unfold persistHistory, setItem.
  destruct (window_defined w), (setItem_works w); simpl; eauto.
Qed.

Lemma onSuccess_returns st clock result prompt :
  exists st',
    onSuccess st clock result prompt = Returned st'
    /\ history st' = firstn 20 (new_entry clock result prompt :: history st)
    /\ selectedId st' = Some (entry_id clock)
    /\ mutations st' = mutations st
    /\ currentMutation st' = currentMutation st
    /\ posted st' = posted st.
Proof.
  unfold onSuccess.
  destruct (persistHistory_returns (window st)
              (firstn 20 (new_entry clock result prompt ::
                            match queryData st with
                            | Some prev => prev
                            | None => []
                            end))) as (w' & ws & Hp).
  rewrite Hp. simpl. eexists. split; [reflexivity|].
  unfold history. simpl. repeat split; reflexivity.
Qed.

(** ** One generate call, from the call to its response *)

Lemma generateModel_blank st prompt :
  trim prompt = [] ->
  generateModel st prompt
  = record_call st {| variables := prompt;
                      mutation_status := Failure EmptyPrompt |} [].
Proof.
  intros Hp. unfold generateModel, mutationFn_request. now rewrite Hp.
Qed.

Lemma generateModel_posts st prompt :
  trim prompt <> [] ->
  generateModel st prompt
  = record_call st {| variables := prompt; mutation_status := Pending |}
      [trim prompt].
Proof.
  intros Hp. unfold generateModel, mutationFn_request.
  destruct (trim prompt); [contradiction|reflexivity].
Qed.

Lemma current_status_set st id s m :
  currentMutation st = Some id ->
  nth_error (mutations st) id = Some m ->
  current_status (set_status st id s) = Some s.
Proof.
  intros Hc Hm. unfold current_status. simpl. rewrite Hc.
  now rewrite (with_status_same _ _ _ _ Hm).
Qed.

(** The response to a pending call whose [mutationFn] then throws. *)
Lemma settle_failure st id r clock m e :
  nth_error (mutations st) id = Some m ->
  mutation_status m = Pending ->
  mutationFn_result (variables m) r = Thrown e ->
  settle st id r clock = Returned (set_status st id (Failure e)).
Proof.
  intros Hm Hs Hr. unfold settle. now rewrite Hm, Hs, Hr.
Qed.

(** The response to a pending call whose [mutationFn] then returns. *)
Lemma settle_success st id r clock m result :
  nth_error (mutations st) id = Some m ->
  mutation_status m = Pending ->
  mutationFn_result (variables m) r = Returned result ->
  exists st1,
    onSuccess st clock result (variables m) = Returned st1
    /\ settle st id r clock = Returned (set_status st1 id (Success result))
    /\ history (set_status st1 id (Success result))
       = firstn 20 (new_entry clock result (variables m) :: history st)
    /\ selectedId (set_status st1 id (Success result)) = Some (entry_id clock)
    /\ mutations st1 = mutations st
    /\ currentMutation st1 = currentMutation st
    /\ posted st1 = posted st.
Proof.
  intros Hm Hs Hr.
  destruct (onSuccess_returns st clock result (variables m))
    as (st1 & Hon & Hh & Hsel & Hms & Hcur & Hpost).
  exists st1. unfold settle. rewrite Hm, Hs, Hr, Hon. simpl.
  repeat split; assumption.
Qed.

Lemma mutationFn_result_success prompt data :
  truthy (optional_get data (js "url")) = true ->
  mutationFn_result prompt (Resolved data)
  = Returned (JObj (obj_set (js "prompt") (JStr (trim prompt)) (own_props data))).
Proof.
  intros Hu. unfold mutationFn_result. now rewrite Hu.
Qed.

Lemma jstring_eqb_eq a b : jstring_eqb a b = true <-> a = b.
Proof.
  revert b. induction a as [|x a IH]; intros [|y b]; simpl;
    try (split; [discriminate|congruence]); [tauto|].
  rewrite andb_true_iff, N.eqb_eq, IH. split; [intros []|intros [=]]; subst; auto.
Qed.

Lemma jstring_eqb_refl a : jstring_eqb a a = true.
Proof. now apply jstring_eqb_eq. Qed.

Lemma jstring_eqb_neq a b : jstring_eqb a b = false <-> a <> b.
Proof.
  rewrite <- jstring_eqb_eq. destruct (jstring_eqb a b); split; congruence.
Qed.

(** [obj_set] of another key leaves a property as it was. *)
Lemma lookup_obj_set_other k k' v props :
  jstring_eqb k k' = false ->
  lookup k (obj_set k' v props) = lookup k props.
Proof.
  intros Hk. induction props as [|[k0 v0] rest IH]; simpl.
  - now rewrite Hk.
  - destruct (jstring_eqb k' k0) eqn:E0; simpl.
    + apply jstring_eqb_eq in E0. subst k0. now rewrite Hk.
    + destruct (jstring_eqb k k0); [reflexivity|exact IH].
Qed.

(** The result handed to [onSuccess] has the response's [url],
    [thumbnailUrl] and [metadata]. *)
Lemma result_fields data text k :
  jstring_eqb k (js "prompt") = false ->
  truthy (optional_get data (js "url")) = true ->
  optional_get (JObj (obj_set (js "prompt") (JStr text) (own_props data))) k
  = optional_get data k.
Proof.
  intros Hk Hu. destruct data; simpl in Hu; try discriminate.
  simpl. now apply lookup_obj_set_other.
Qed.

Lemma generate_success st prompt data clock :
  succeeds prompt data ->
  exists st',
    generate st prompt (Resolved data) clock = Returned st'
    /\ history st'
       = firstn 20
           (new_entry clock
              (JObj (obj_set (js "prompt") (JStr (trim prompt)) (own_props data)))
              prompt :: history st)
    /\ selectedId st' = Some (entry_id clock)
    /\ error st' = None
    /\ isGenerating st' = false
    /\ posted st' = posted st ++ [trim prompt].
Proof.
  intros [Hp Hu]. unfold generate. rewrite (generateModel_posts _ _ Hp).
  set (m := {| variables := prompt; mutation_status := Pending |}).
  set (st0 := record_call st m [trim prompt]).
  assert (Hm : nth_error (mutations st0) (next_call st) = Some m)
    by apply nth_error_snoc.
  destruct (settle_success st0 (next_call st) (Resolved data) clock m _ Hm
              eq_refl (mutationFn_result_success prompt data Hu))
    as (st1 & _ & Hset & Hh & Hsel & Hms & Hcur & Hpost).
  eexists. split; [exact Hset|].
  assert (Hst : current_status
                  (set_status st1 (next_call st)
                     (Success (JObj (obj_set (js "prompt") (JStr (trim prompt))
                                       (own_props data)))))
                = Some (Success (JObj (obj_set (js "prompt") (JStr (trim prompt))
                                         (own_props data))))).
  { apply current_status_set with (m := m); [rewrite Hcur|rewrite Hms];
      [reflexivity|exact Hm]. }
  repeat split.
  - exact Hh.
  - exact Hsel.
  - unfold error. now rewrite Hst.
  - unfold isGenerating. now rewrite Hst.
  - simpl. exact Hpost.
Qed.

Lemma generate_failure st prompt r clock e :
  trim prompt <> [] ->
  mutationFn_result prompt r = Thrown e ->
  generate st prompt r clock
  = Returned (set_status
                (record_call st {| variables := prompt;
                                   mutation_status := Pending |} [trim prompt])
                (next_call st) (Failure e)).
Proof.
  intros Hp Hr. unfold generate. rewrite (generateModel_posts _ _ Hp).
  eapply settle_failure; [apply nth_error_snoc|reflexivity|exact Hr].
Qed.

(** What a successful call writes into its record. *)
Lemma new_entry_id clock result prompt :
  optional_get (new_entry clock result prompt) (js "id")
  = Some (JStr (entry_id clock)).
Proof. reflexivity. Qed.

Lemma new_entry_prompt clock result prompt :
  optional_get (new_entry clock result prompt) (js "prompt")
  = Some (JStr prompt).
Proof. reflexivity. Qed.

Lemma new_entry_url clock result prompt :
  optional_get (new_entry clock result prompt) (js "url")
  = optional_get result (js "url").
Proof.
  unfold new_entry. cbn [object_literal].
  destruct (optional_get result (js "url"));
    destruct (optional_get result (js "thumbnailUrl"));
    destruct (optional_get result (js "metadata")); reflexivity.
Qed.

Lemma new_entry_thumbnailUrl clock result prompt :
  optional_get (new_entry clock result prompt) (js "thumbnailUrl")
  = optional_get result (js "thumbnailUrl").
Proof.
  unfold new_entry. cbn [object_literal].
  destruct (optional_get result (js "url"));
    destruct (optional_get result (js "thumbnailUrl"));
    destruct (optional_get result (js "metadata")); reflexivity.
Qed.

Lemma new_entry_metadata clock result prompt :
  optional_get (new_entry clock result prompt) (js "metadata")
  = optional_get result (js "metadata").
Proof.
  unfold new_entry. cbn [object_literal].
  destruct (optional_get result (js "url"));
    destruct (optional_get result (js "thumbnailUrl"));
    destruct (optional_get result (js "metadata")); reflexivity.
Qed.

(** ** The 20-element cap *)

Lemma firstn_cap {A} (x : A) (h : list A) :
  List.length (firstn 20 (x :: h)) <= 20.
Proof. rewrite length_firstn. apply Nat.le_min_l. Qed.

Lemma firstn_full {A} (x : A) (h : list A) :
  List.length h = 20 -> firstn 20 (x :: h) = x :: removelast h.
Proof.
  intros Hlen. rewrite removelast_firstn_len, Hlen. reflexivity.
Qed.

Lemma ids_app h1 h2 : ids (h1 ++ h2) = ids h1 ++ ids h2.
Proof. apply map_app. Qed.

Lemma oldest_evicted (h : list json) :
  h <> [] -> NoDup (ids h) -> ~ In (last h JNull) (removelast h).
Proof.
  intros Hne Hnd Hin.
  rewrite (app_removelast_last JNull Hne), ids_app in Hnd.
  apply NoDup_remove_2 in Hnd. apply Hnd. rewrite app_nil_r.
  unfold ids. apply in_map with (f := fun item => optional_get item (js "id")).
  exact Hin.
Qed.

Lemma last_in {A} (h : list A) (d : A) : h <> [] -> In (last h d) h.
Proof.
  intros Hne. rewrite (app_removelast_last d Hne) at 2.
  apply in_or_app. right. now left.
Qed.

Lemma generate_all_capped st calls :
  Forall (fun c => succeeds (fst (fst c)) (snd (fst c))) calls ->
  exists st',
    generate_all st calls = Returned st'
    /\ (List.length (history st) <= 20 -> List.length (history st') <= 20).
Proof.
  intros Hcalls. revert st.
  induction Hcalls as [|[[prompt data] clock] calls Hc _ IH]; intros st.
  - exists st. split; [reflexivity|auto].
  - destruct (generate_success st prompt data clock Hc)
      as (st1 & Hgen & Hh & _).
    destruct (IH st1) as (st' & Hall & Hcap).
    exists st'. simpl. rewrite Hgen. simpl. split; [exact Hall|].
    intros _. apply Hcap. rewrite Hh. apply firstn_cap.
Qed.

(** ** Claims about one generate call *)

(** C4. A prompt that is blank once trimmed (empty, or white space only)
    makes the call fail with the empty-prompt error before anything is
    posted to the generation service; the history, the selection and the
    stored history stay as they were. *)
Theorem blank_prompt_rejected (st : state) (prompt : jstring) :
  trim prompt = [] ->
  nth_error (mutations (generateModel st prompt)) (next_call st)
  = Some {| variables := prompt; mutation_status := Failure EmptyPrompt |}
  /\ error (generateModel st prompt) = Some EmptyPrompt
  /\ isGenerating (generateModel st prompt) = false
  /\ posted (generateModel st prompt) = posted st
  /\ history (generateModel st prompt) = history st
  /\ selectedId (generateModel st prompt) = selectedId st
  /\ window (generateModel st prompt) = window st.
Proof.
  intros Hp. rewrite (generateModel_blank _ _ Hp).
  assert (Hm : nth_error
                 (mutations (record_call st
                    {| variables := prompt;
                       mutation_status := Failure EmptyPrompt |} []))
                 (next_call st)
               = Some {| variables := prompt;
                         mutation_status := Failure EmptyPrompt |})
    by apply nth_error_snoc.
  split; [exact Hm|].
  unfold error, isGenerating, current_status.
  cbn [currentMutation record_call]. fold (next_call st). rewrite Hm.
  repeat split. simpl. apply app_nil_r.
Qed.

Lemma blank_prompt_rejected_witness :
  trim (js "   ") = []
  /\ error (generateModel (started (browser None) []) (js "   "))
     = Some EmptyPrompt
  /\ posted (generateModel (started (browser None) []) (js "   ")) = [].
Proof.
  split; [reflexivity|].
  destruct (blank_prompt_rejected (started (browser None) []) (js "   ")
              eq_refl) as (_ & He & _ & Hp & _).
  split; [exact He|exact Hp].
Defined.

(** A prompt made of white space only is blank once trimmed. *)
Lemma trim_start_spaces s : forallb is_trim_space s = true -> trim_start s = [].
Proof.
  induction s as [|c s IH]; simpl; [reflexivity|].
  intros H. apply andb_true_iff in H as [Hc Hs]. rewrite Hc. auto.
Qed.

Lemma trim_spaces s : forallb is_trim_space s = true -> trim s = [].
Proof.
  intros H. unfold trim. now rewrite (trim_start_spaces _ H).
Qed.

(** A generate call that is answered before anything else happens and
    fails, because the request is rejected or because the response has
    no usable url, sets the error and leaves the history, the selection
    and the store as they were before the call. *)
Theorem failed_generate_keeps_history (st : state) (prompt : jstring)
  (r : response) (clock : Clock) :
  trim prompt <> [] ->
  match r with
  | Rejected _ => True
  | Resolved data => truthy (optional_get data (js "url")) = false
  end ->
  exists st',
    generate st prompt r clock = Returned st'
    /\ error st' = Some match r with
                        | Rejected e => e
                        | Resolved _ => EmptyResponse
                        end
    /\ isGenerating st' = false
    /\ history st' = history st
    /\ selectedId st' = selectedId st
    /\ window st' = window st.
Proof.
  intros Hp Hr.
  set (e := match r with Rejected e => e | Resolved _ => EmptyResponse end).
  assert (Hres : mutationFn_result prompt r = Thrown e).
  { destruct r as [data|e']; simpl; [now rewrite Hr|reflexivity]. }
  eexists. split; [exact (generate_failure st prompt r clock e Hp Hres)|].
  assert (Hst : current_status
                  (set_status
                     (record_call st {| variables := prompt;
                                        mutation_status := Pending |}
                        [trim prompt])
                     (next_call st) (Failure e)) = Some (Failure e)).
  { eapply current_status_set; [reflexivity|apply nth_error_snoc]. }
  unfold error, isGenerating. rewrite Hst. repeat split.
Qed.

Lemma failed_generate_keeps_history_witness :
  trim (js "biplane wing") <> []
  /\ exists st',
       generate (started (browser None) [model_value (sample_model "m1")])
         (js "biplane wing") (Resolved (JObj [])) (clock_uuid "u1")
       = Returned st'
       /\ error st' = Some EmptyResponse
       /\ history st' = [model_value (sample_model "m1")].
Proof.
  split; [discriminate|].
  destruct (failed_generate_keeps_history
              (started (browser None) [model_value (sample_model "m1")])
              (js "biplane wing") (Resolved (JObj [])) (clock_uuid "u1"))
    as (st' & Hgen & He & _ & Hh & _); [discriminate|reflexivity|].
  exists st'. repeat split; assumption.
Defined.

(** The record of a successful call: it has the response's url,
    thumbnailUrl and metadata and becomes the selection; its prompt is
    the text as it was passed to [generateModel], while the text posted
    to the service is the trimmed one. *)
Theorem generated_record_fields (st : state) (prompt : jstring) (data : json)
  (clock : Clock) :
  succeeds prompt data ->
  exists st' entry,
    generate st prompt (Resolved data) clock = Returned st'
    /\ history st' = firstn 20 (entry :: history st)
    /\ optional_get entry (js "prompt") = Some (JStr prompt)
    /\ optional_get entry (js "url") = optional_get data (js "url")
    /\ optional_get entry (js "thumbnailUrl")
       = optional_get data (js "thumbnailUrl")
    /\ optional_get entry (js "metadata") = optional_get data (js "metadata")
    /\ optional_get entry (js "id") = Some (JStr (entry_id clock))
    /\ selectedId st' = Some (entry_id clock)
    /\ posted st' = posted st ++ [trim prompt].
Proof.
  intros Hok.
  destruct (generate_success st prompt data clock Hok)
    as (st' & Hgen & Hh & Hsel & _ & _ & Hpost).
  destruct Hok as [_ Hu].
  exists st'. eexists. split; [exact Hgen|]. split; [exact Hh|].
  rewrite new_entry_url, new_entry_thumbnailUrl, new_entry_metadata.
  rewrite !result_fields by (reflexivity || exact Hu).
  repeat split; assumption.
Qed.

Lemma generated_record_fields_witness :
  succeeds (js "  biplane wing ") (glb "a.glb")
  /\ exists st' entry,
       generate (started (browser None) []) (js "  biplane wing ")
         (Resolved (glb "a.glb")) (clock_uuid "u1") = Returned st'
       /\ history st' = firstn 20 [entry]
       /\ optional_get entry (js "prompt") = Some (JStr (js "  biplane wing "))
       /\ optional_get entry (js "url") = Some (JStr (js "a.glb")).
Proof.
  assert (Hok : succeeds (js "  biplane wing ") (glb "a.glb"))
    by (split; [discriminate|reflexivity]).
  split; [exact Hok|].
  destruct (generated_record_fields (started (browser None) [])
              (js "  biplane wing ") (glb "a.glb") (clock_uuid "u1") Hok)
    as (st' & entry & Hgen & Hh & Hp & Hu & _).
  exists st', entry. repeat split; assumption.
Defined.

(** C2 at a padded prompt: the stored prompt keeps its surrounding white
    space, although the text posted to the service is trimmed. *)
Theorem padded_prompt_stored_untrimmed :
  exists st' entry,
    generate (started (browser None) []) (js "  biplane wing ")
      (Resolved (glb "a.glb")) (clock_uuid "u1") = Returned st'
    /\ history st' = [entry]
    /\ optional_get entry (js "prompt") = Some (JStr (js "  biplane wing "))
    /\ trim (js "  biplane wing ") = js "biplane wing"
    /\ posted st' = [js "biplane wing"].
Proof.
  eexists. eexists. split; [vm_compute; reflexivity|].
  repeat split.
Qed.

(** C3. Along any sequence of successful generations the history never
    grows past 20 elements; a successful generation over a history of 20
    puts the new record first and drops the last element, which is then
    absent when ids are unique and the new id is new. *)
Theorem history_cap (st : state) (calls : list (jstring * json * Clock))
  (prompt : jstring) (data : json) (clock : Clock) :
  Forall (fun c => succeeds (fst (fst c)) (snd (fst c))) calls ->
  succeeds prompt data ->
  exists st1 st2,
    generate_all st calls = Returned st1
    /\ generate st1 prompt (Resolved data) clock = Returned st2
    /\ (List.length (history st) <= 20 -> List.length (history st1) <= 20)
    /\ List.length (history st2) <= 20
    /\ (List.length (history st1) = 20 ->
        exists entry,
          history st2 = entry :: removelast (history st1)
          /\ optional_get entry (js "id") = Some (JStr (entry_id clock))
          /\ (NoDup (ids (history st1)) ->
              ~ In (Some (JStr (entry_id clock))) (ids (history st1)) ->
              ~ In (last (history st1) JNull) (history st2))).
Proof.
  intros Hcalls Hok.
  destruct (generate_all_capped st calls Hcalls) as (st1 & Hall & Hcap).
  destruct (generate_success st1 prompt data clock Hok)
    as (st2 & Hgen & Hh & _).
  exists st1, st2. split; [exact Hall|]. split; [exact Hgen|].
  split; [exact Hcap|]. split; [rewrite Hh; apply firstn_cap|].
  intros Hlen. eexists. split; [rewrite Hh; apply (firstn_full _ _ Hlen)|].
  split; [apply new_entry_id|].
  intros Hnd Hfresh. rewrite Hh, (firstn_full _ _ Hlen).
  assert (Hne : history st1 <> []) by (intros E; rewrite E in Hlen; discriminate).
  intros [Heq|Hin].
  - apply Hfresh. rewrite <- (new_entry_id clock
      (JObj (obj_set (js "prompt") (JStr (trim prompt)) (own_props data))) prompt).
    rewrite Heq. unfold ids.
    apply in_map with (f := fun item => optional_get item (js "id")).
    now apply last_in.
  - exact (oldest_evicted _ Hne Hnd Hin).
Qed.

Lemma history_cap_witness :
  Forall (fun c => succeeds (fst (fst c)) (snd (fst c)))
    [(js "tail fin", glb "t.glb", clock_uuid "u20")]
  /\ succeeds (js "biplane wing") (glb "a.glb")
  /\ exists st1 st2,
       generate_all
         (started (browser None)
            (map (fun i => model_value (sample_model i))
               ["19"; "18"; "17"; "16"; "15"; "14"; "13"; "12"; "11"; "10";
                "9"; "8"; "7"; "6"; "5"; "4"; "3"; "2"; "1"]%string))
         [(js "tail fin", glb "t.glb", clock_uuid "u20")] = Returned st1
       /\ generate st1 (js "biplane wing") (Resolved (glb "a.glb"))
            (clock_uuid "u21") = Returned st2
       /\ List.length (history st2) <= 20.
Proof.
  assert (H1 : succeeds (js "tail fin") (glb "t.glb"))
    by (split; [discriminate|reflexivity]).
  assert (H2 : succeeds (js "biplane wing") (glb "a.glb"))
    by (split; [discriminate|reflexivity]).
  split; [constructor; [exact H1|constructor]|]. split; [exact H2|].
  destruct (history_cap
              (started (browser None)
                 (map (fun i => model_value (sample_model i))
                    ["19"; "18"; "17"; "16"; "15"; "14"; "13"; "12"; "11"; "10";
                     "9"; "8"; "7"; "6"; "5"; "4"; "3"; "2"; "1"]%string))
              [(js "tail fin", glb "t.glb", clock_uuid "u20")]
              (js "biplane wing") (glb "a.glb") (clock_uuid "u21"))
    as (st1 & st2 & Hall & Hgen & _ & Hcap & _);
    [constructor; [exact H1|constructor]|exact H2|].
  exists st1, st2. repeat split; assumption.
Defined.

(** ** The selected model *)

Lemma get_model_id m :
  get (model_value m) (js "id") = Returned (Some (JStr (Types.id m))).
Proof. reflexivity. Qed.

Lemma head_or_null_models ms :
  head_or_null (map model_value ms) = option_map model_value (hd_error ms).
Proof. destruct ms; reflexivity. Qed.

Lemma find_selected_models ms sel :
  find_selected (map model_value ms) sel
  = Returned
      (option_map model_value
         match sel with
         | Some s => find (fun m => jstring_eqb (Types.id m) s) ms
         | None => None
         end).
Proof.
  induction ms as [|m ms IH]; [destruct sel; reflexivity|].
  cbn [map find_selected]. rewrite get_model_id. cbn [bind strict_eq].
  destruct sel as [s|]; [|exact IH].
  cbn [find]. destruct (jstring_eqb (Types.id m) s); [reflexivity|exact IH].
Qed.

Lemma selectedModel_of_models ms sel :
  selectedModel_of (map model_value ms) sel
  = Returned (option_map model_value (selected_by_rule ms sel)).
Proof.
  unfold selectedModel_of, selected_by_rule.
  rewrite find_selected_models, head_or_null_models. cbn [bind].
  destruct sel as [s|]; [|reflexivity].
  destruct (find _ ms); reflexivity.
Qed.

Lemma find_absent (ms : list Types.GeneratedModel) s :
  (forall m, In m ms -> Types.id m <> s) ->
  find (fun m => jstring_eqb (Types.id m) s) ms = None.
Proof.
  intros H. induction ms as [|m ms IH]; [reflexivity|]. simpl.
  destruct (jstring_eqb (Types.id m) s) eqn:E.
  - apply jstring_eqb_eq in E. exfalso. apply (H m); [now left|exact E].
  - apply IH. intros m' Hin. apply H. now right.
Qed.

(** An element that is [null] makes the projection throw. *)
Lemma selectedModel_of_null h sel :
  selectedModel_of (JNull :: h) sel = Thrown TypeError.
Proof. reflexivity. Qed.

(** Only a [null] element can make the projection throw. *)
Lemma selectedModel_of_returns h sel :
  ~ In JNull h -> exists r, selectedModel_of h sel = Returned r.
Proof.
  intros Hnull. unfold selectedModel_of.
  assert (Hfind : exists found, find_selected h sel = Returned found).
  { induction h as [|item h IH]; [now exists None|].
    cbn [find_selected].
    assert (Hget : exists i, get item (js "id") = Returned i).
    { destruct item; try (eexists; reflexivity).
      exfalso. apply Hnull. now left. }
    destruct Hget as (i & ->). cbn [bind].
    destruct (strict_eq i sel); [now exists (Some item)|].
    apply IH. intros Hin. apply Hnull. now right. }
  destruct Hfind as (found & ->). cbn [bind]. eauto.
Qed.

(** C8. Over a history of records, the selected model is the element
    whose id is the selected id when there is one, otherwise the head,
    otherwise nothing; selecting an id no element has gives the head, and
    clearing the history leaves nothing selected. *)
Theorem selected_model_rule (st : state) (ms : list Types.GeneratedModel) :
  history st = map model_value ms ->
  selectedModel st
  = Returned (option_map model_value (selected_by_rule ms (selectedId st)))
  /\ (forall s,
        (forall m, In m ms -> Types.id m <> s) ->
        selectedModel (selectModel st s)
        = Returned (option_map model_value (hd_error ms)))
  /\ (exists st',
        clearHistory st = Returned st'
        /\ history st' = []
        /\ selectedId st' = None
        /\ selectedModel st' = Returned None).
Proof.
  intros Hh. split; [|split].
  - unfold selectedModel. rewrite Hh. apply selectedModel_of_models.
  - intros s Hs. unfold selectedModel.
    change (history (selectModel st s)) with (history st).
    rewrite Hh, selectedModel_of_models. cbn [selectModel selectedId].
    unfold selected_by_rule. now rewrite (find_absent _ _ Hs).
  - unfold clearHistory.
    destruct (persistHistory_returns (window st) []) as (w' & ws & Hp).
    rewrite Hp. cbn [bind]. eexists. split; [reflexivity|].
    repeat split.
Qed.

Lemma selected_model_rule_witness :
  history (selectModel
             (started (browser None)
                [model_value (sample_model "m2"); model_value (sample_model "m1")])
             (js "m1"))
  = map model_value [sample_model "m2"; sample_model "m1"]
  /\ selectedModel
       (selectModel
          (started (browser None)
             [model_value (sample_model "m2"); model_value (sample_model "m1")])
          (js "m1"))
     = Returned (Some (model_value (sample_model "m1"))).
Proof.
  split; [reflexivity|].
  exact (proj1 (selected_model_rule
                  (selectModel
                     (started (browser None)
                        [model_value (sample_model "m2");
                         model_value (sample_model "m1")])
                     (js "m1"))
                  [sample_model "m2"; sample_model "m1"] eq_refl)).
Defined.

(** ** Two calls in flight *)

(** What the response to a pending call does, whether or not the
    observer still follows that call. *)
Lemma settle_pending st id r clock m :
  nth_error (mutations st) id = Some m ->
  mutation_status m = Pending ->
  exists st' s,
    settle st id r clock = Returned st'
    /\ mutations st' = with_status (mutations st) id s
    /\ currentMutation st' = currentMutation st
    /\ match mutationFn_result (variables m) r with
       | Returned result =>
           s = Success result
           /\ history st'
              = firstn 20 (new_entry clock result (variables m) :: history st)
           /\ selectedId st' = Some (entry_id clock)
       | Thrown e =>
           s = Failure e
           /\ history st' = history st
           /\ selectedId st' = selectedId st
           /\ window st' = window st
       end.
Proof.
  intros Hm Hs.
  destruct (mutationFn_result (variables m) r) as [result|e] eqn:Hr.
  - destruct (settle_success st id r clock m result Hm Hs Hr)
      as (st1 & _ & Hset & Hh & Hsel & Hms & Hcur & _).
    exists (set_status st1 id (Success result)), (Success result).
    split; [exact Hset|]. simpl. rewrite Hms, Hcur. repeat split; assumption.
  - exists (set_status st id (Failure e)), (Failure e).
    split; [exact (settle_failure st id r clock m e Hm Hs Hr)|].
    repeat split.
Qed.

Lemma current_status_other st st' id s :
  mutations st' = with_status (mutations st) id s ->
  currentMutation st' = currentMutation st ->
  currentMutation st <> Some id ->
  current_status st' = current_status st.
Proof.
  intros Hms Hcur Hne. unfold current_status. rewrite Hcur, Hms.
  destruct (currentMutation st) as [j|]; [|reflexivity].
  rewrite with_status_other; [reflexivity|congruence].
Qed.

(** C5, as the code has it. The failing response to a generate call,
    a rejected request or a body without a usable url, leaves the
    history, the selection and the store exactly as they were. The error
    field becomes non-null only when the call is still the one the hook
    follows, that is the most recently made call with no [resetError]
    since; for a call that was superseded or reset the error field and
    [isGenerating] stay as they are. *)
Theorem failing_response_keeps_history (st : state) (id : nat) (r : response)
  (clock : Clock) (m : mutation) :
  nth_error (mutations st) id = Some m ->
  mutation_status m = Pending ->
  match r with
  | Rejected _ => True
  | Resolved data => truthy (optional_get data (js "url")) = false
  end ->
  exists st',
    settle st id r clock = Returned st'
    /\ history st' = history st
    /\ selectedId st' = selectedId st
    /\ window st' = window st
    /\ nth_error (mutations st') id
       = Some {| variables := variables m;
                 mutation_status :=
                   Failure match r with
                           | Rejected e => e
                           | Resolved _ => EmptyResponse
                           end |}
    /\ (currentMutation st = Some id ->
        error st' = Some match r with
                         | Rejected e => e
                         | Resolved _ => EmptyResponse
                         end
        /\ isGenerating st' = false)
    /\ (currentMutation st <> Some id ->
        error st' = error st /\ isGenerating st' = isGenerating st).
Proof.
  intros Hm Hs Hr.
  set (e := match r with Rejected e => e | Resolved _ => EmptyResponse end).
  assert (Hres : mutationFn_result (variables m) r = Thrown e).
  { destruct r as [data|e']; simpl; [now rewrite Hr|reflexivity]. }
  exists (set_status st id (Failure e)).
  split; [exact (settle_failure st id r clock m e Hm Hs Hres)|].
  split; [reflexivity|]. split; [reflexivity|]. split; [reflexivity|].
  split; [exact (with_status_same _ _ _ _ Hm)|]. split.
  - intros Hcur. unfold error, isGenerating.
    rewrite (current_status_set st id (Failure e) m Hcur Hm). now split.
  - intros Hcur. unfold error, isGenerating.
    rewrite (current_status_other st (set_status st id (Failure e)) id
               (Failure e) eq_refl eq_refl Hcur). now split.
Qed.

Lemma failing_response_keeps_history_witness :
  exists st',
    settle
      (generateModel
         (generateModel (started (browser None) [model_value (sample_model "m1")])
            (js "wing A"))
         (js "wing B"))
      0 (Resolved (JObj [])) (clock_uuid "u1") = Returned st'
    /\ history st' = [model_value (sample_model "m1")]
    /\ error st' = None
    /\ isGenerating st' = true.
Proof.
  destruct (failing_response_keeps_history
              (generateModel
                 (generateModel
                    (started (browser None) [model_value (sample_model "m1")])
                    (js "wing A"))
                 (js "wing B"))
              0 (Resolved (JObj [])) (clock_uuid "u1")
              {| variables := js "wing A"; mutation_status := Pending |}
              eq_refl eq_refl eq_refl)
    as (st' & Hset & Hh & _ & _ & _ & _ & Hother).
  exists st'. split; [exact Hset|]. split; [exact Hh|].
  exact (Hother ltac:(discriminate)).
Defined.

(** C5 as stated fails for a call the hook no longer follows: a call
    that fails after [resetError], or after a later call was made, has
    failed, yet the error field is null. *)
Lemma unobserved_failure_sets_no_error :
  (exists st',
     run (started (browser None) [])
       [GenerateModel (js "wing"); ResetError;
        Settle 0 (Rejected (AxiosError "Network Error")) (clock_uuid "u1")]
     = Returned st'
     /\ option_map mutation_status (nth_error (mutations st') 0)
        = Some (Failure (AxiosError "Network Error"))
     /\ error st' = None)
  /\ (exists st',
        run (started (browser None) [])
          [GenerateModel (js "wing A"); GenerateModel (js "wing B");
           Settle 0 (Resolved (JObj [])) (clock_uuid "u1")]
        = Returned st'
        /\ option_map mutation_status (nth_error (mutations st') 0)
           = Some (Failure EmptyResponse)
        /\ error st' = None).
Proof.
  split; eexists; (split; [vm_compute; reflexivity|]); split; reflexivity.
Qed.

(** While a call is pending another call can change the history: at
    the failure of the earlier call the history is the one the later
    call left, not the one from before the earlier call. *)
Lemma history_moves_while_call_pending :
  exists st' entryB,
    run (started (browser None) [])
      [GenerateModel (js "wing A"); GenerateModel (js "wing B");
       Settle 1 (Resolved (glb "b.glb")) (clock_uuid "uB");
       Settle 0 (Rejected (AxiosError "Network Error")) (clock_uuid "uA")]
    = Returned st'
    /\ history st' = [entryB]
    /\ history st' <> history (started (browser None) []).
Proof.
  eexists. eexists. split; [vm_compute; reflexivity|].
  split; [reflexivity|discriminate].
Qed.

(** C1, as the code has it. Call A is made, call B is made while A is
    pending, B's response arrives, then A's. A's late response is not
    discarded: when it is a success its record is put at the head of the
    history and becomes the selection; when it is a failure the history
    and the selection stay as B left them. Only [isGenerating] and
    [error] follow the later call alone. *)
Theorem late_response_still_commits (st : state) (promptA promptB : jstring)
  (rA rB : response) (clockA clockB : Clock) :
  trim promptA <> [] ->
  trim promptB <> [] ->
  exists stB st',
    run st [GenerateModel promptA; GenerateModel promptB;
            Settle (S (next_call st)) rB clockB] = Returned stB
    /\ settle stB (next_call st) rA clockA = Returned st'
    /\ error st' = error stB
    /\ isGenerating st' = isGenerating stB
    /\ match mutationFn_result promptA rA with
       | Returned result =>
           history st'
           = firstn 20 (new_entry clockA result promptA :: history stB)
           /\ selectedId st' = Some (entry_id clockA)
       | Thrown _ =>
           history st' = history stB /\ selectedId st' = selectedId stB
       end.
Proof.
  intros HA HB. cbn [run step bind].
  rewrite (generateModel_posts st promptA HA).
  set (mA := {| variables := promptA; mutation_status := Pending |}).
  set (stA := record_call st mA [trim promptA]).
  rewrite (generateModel_posts stA promptB HB).
  set (mB := {| variables := promptB; mutation_status := Pending |}).
  set (st2 := record_call stA mB [trim promptB]).
  assert (Hlen : List.length (mutations stA) = S (next_call st)).
  { unfold stA, next_call. simpl. rewrite length_app. simpl. lia. }
  assert (HmB : nth_error (mutations st2) (S (next_call st)) = Some mB).
  { unfold st2. cbn [mutations record_call]. rewrite <- Hlen.
    apply nth_error_snoc. }
  assert (HmA : nth_error (mutations st2) (next_call st) = Some mA).
  { unfold st2. cbn [mutations record_call].
    rewrite nth_error_snoc_lt by lia. apply nth_error_snoc. }
  assert (Hcur2 : currentMutation st2 = Some (S (next_call st))).
  { unfold st2. cbn [currentMutation record_call]. now rewrite Hlen. }
  destruct (settle_pending st2 (S (next_call st)) rB clockB mB HmB eq_refl)
    as (stB & sB & HsetB & HmsB & HcurB & _).
  rewrite HsetB.
  assert (HmA' : nth_error (mutations stB) (next_call st) = Some mA).
  { rewrite HmsB, with_status_other by lia. exact HmA. }
  destruct (settle_pending stB (next_call st) rA clockA mA HmA' eq_refl)
    as (st' & sA & HsetA & HmsA & HcurA & Hres).
  exists stB, st'. split; [reflexivity|]. split; [exact HsetA|].
  assert (Hst : current_status st' = current_status stB).
  { apply (current_status_other stB st' (next_call st) sA HmsA HcurA).
    rewrite HcurB, Hcur2. intros [= E]. lia. }
  unfold error, isGenerating. rewrite Hst. split; [reflexivity|].
  split; [reflexivity|].
  change (variables mA) with promptA in Hres.
  destruct (mutationFn_result promptA rA); tauto.
Qed.

Lemma late_response_still_commits_witness :
  trim (js "wing A") <> []
  /\ trim (js "wing B") <> []
  /\ exists stB st',
       run (started (browser None) [])
         [GenerateModel (js "wing A"); GenerateModel (js "wing B");
          Settle 1 (Resolved (glb "b.glb")) (clock_uuid "uB")] = Returned stB
       /\ settle stB 0 (Resolved (glb "a.glb")) (clock_uuid "uA") = Returned st'
       /\ error st' = error stB
       /\ selectedId st' = Some (js "uA").
Proof.
  split; [discriminate|]. split; [discriminate|].
  destruct (late_response_still_commits (started (browser None) [])
              (js "wing A") (js "wing B")
              (Resolved (glb "a.glb")) (Resolved (glb "b.glb"))
              (clock_uuid "uA") (clock_uuid "uB"))
    as (stB & st' & Hrun & Hset & He & _ & _ & Hsel);
    [discriminate|discriminate|].
  exists stB, st'. repeat split; assumption.
Defined.

(** C1 as stated fails: after B's response the history holds B's record
    alone and B is selected; A's response, arriving later, puts A's
    record in front of it and moves the selection to A. *)
Lemma late_response_overwrites :
  exists stB st' entryA entryB,
    run (started (browser None) [])
      [GenerateModel (js "wing A"); GenerateModel (js "wing B");
       Settle 1 (Resolved (glb "b.glb")) (clock_uuid "uB")] = Returned stB
    /\ settle stB 0 (Resolved (glb "a.glb")) (clock_uuid "uA") = Returned st'
    /\ history stB = [entryB]
    /\ selectedId stB = Some (js "uB")
    /\ history st' = [entryA; entryB]
    /\ optional_get entryA (js "url") = Some (JStr (js "a.glb"))
    /\ optional_get entryB (js "url") = Some (JStr (js "b.glb"))
    /\ selectedId st' = Some (js "uA")
    /\ history st' <> history stB
    /\ selectedId st' <> selectedId stB.
Proof.
  eexists. eexists. eexists. eexists.
  split; [vm_compute; reflexivity|].
  split; [vm_compute; reflexivity|].
  repeat split; discriminate.
Qed.

(** ** Ids of the history *)

Lemma has_id_In h i : has_id h i = true <-> In (Some (JStr i)) (ids h).
Proof.
  unfold has_id, ids. rewrite existsb_exists, in_map_iff.
  split; intros (item & H1 & H2); exists item.
  - split; [|exact H1].
    destruct (optional_get item (js "id")) as [[]|]; simpl in H2;
      try discriminate.
    apply jstring_eqb_eq in H2. now subst.
  - split; [exact H2|]. rewrite H1. simpl. apply jstring_eqb_refl.
Qed.

Lemma NoDup_firstn {A} n (l : list A) : NoDup l -> NoDup (firstn n l).
Proof.
  intros H. revert n. induction H as [|x l Hx Hl IH]; intros [|n]; simpl;
    try constructor; auto.
  intros Hin. apply Hx. rewrite <- (firstn_skipn n l).
  apply in_or_app. now left.
Qed.

Lemma ids_firstn n h : ids (firstn n h) = firstn n (ids h).
Proof. unfold ids. now rewrite firstn_map. Qed.

Lemma ids_prepend h clock result prompt :
  NoDup (ids h) ->
  has_id h (entry_id clock) = false ->
  NoDup (ids (firstn 20 (new_entry clock result prompt :: h))).
Proof.
  intros Hnd Hfresh. rewrite ids_firstn. apply NoDup_firstn.
  cbn [ids map]. rewrite new_entry_id. constructor; [|exact Hnd].
  intros Hin. apply has_id_In in Hin. congruence.
Qed.

(** Every step returns, and changes the history in one of three ways. *)
Lemma step_history st e :
  exists st',
    step st e = Returned st'
    /\ (history st' = history st
        \/ history st' = []
        \/ exists id r clock result prompt,
             e = Settle id r clock
             /\ history st'
                = firstn 20 (new_entry clock result prompt :: history st)).
Proof.
  destruct e as [prompt|id r clock|id| |]; cbn [step].
  - eexists. split; [reflexivity|]. left.
    unfold generateModel. destruct (mutationFn_request prompt); reflexivity.
  - unfold settle.
    destruct (nth_error (mutations st) id) as [m|] eqn:Hm;
      [|eexists; split; [reflexivity|now left]].
    destruct (mutation_status m) eqn:Hs;
      try (eexists; split; [reflexivity|now left]).
    destruct (mutationFn_result (variables m) r) as [result|err] eqn:Hr;
      [|eexists; split; [reflexivity|now left]].
    destruct (onSuccess_returns st clock result (variables m))
      as (st1 & Hon & Hh & _).
    rewrite Hon. cbn [bind]. eexists. split; [reflexivity|].
    right. right. exists id, r, clock, result, (variables m).
    split; [reflexivity|exact Hh].
  - eexists. split; [reflexivity|now left].
  - unfold clearHistory.
    destruct (persistHistory_returns (window st) []) as (w' & ws & Hp).
    rewrite Hp. cbn [bind]. eexists. split; [reflexivity|]. right. now left.
  - eexists. split; [reflexivity|now left].
Qed.

Lemma run_returns st events : exists st', run st events = Returned st'.
Proof.
  revert st. induction events as [|e events IH]; intros st.
  - now exists st.
  - destruct (step_history st e) as (st1 & Hstep & _).
    destruct (IH st1) as (st' & Hrun). exists st'.
    cbn [run]. now rewrite Hstep.
Qed.

Lemma run_capped st events :
  List.length (history st) <= 20 ->
  exists st', run st events = Returned st' /\ List.length (history st') <= 20.
Proof.
  revert st. induction events as [|e events IH]; intros st Hcap.
  - now exists st.
  - destruct (step_history st e)
      as (st1 & Hstep & [Hh|[Hh|(id & r & clock & result & prompt & _ & Hh)]]);
      (destruct (IH st1) as (st' & Hrun & Hcap');
       [rewrite Hh; first [exact Hcap|simpl; lia|apply firstn_cap]|]);
      exists st'; cbn [run]; rewrite Hstep; split; assumption.
Qed.

(** C9, as the code has it. Starting from a history whose ids are
    pairwise distinct, generate calls, responses, selections, clears and
    resets keep them pairwise distinct, as long as every response arrives
    with an id that the history does not already hold. *)
Theorem ids_stay_unique (st : state) (events : list event) :
  NoDup (ids (history st)) ->
  fresh_ids st events = true ->
  exists st', run st events = Returned st' /\ NoDup (ids (history st')).
Proof.
  revert st. induction events as [|e events IH]; intros st Hnd Hfresh.
  - exists st. split; [reflexivity|exact Hnd].
  - cbn [fresh_ids] in Hfresh. apply andb_true_iff in Hfresh as [Hnow Hlater].
    destruct (step_history st e) as (st1 & Hstep & Hh).
    rewrite Hstep in Hlater.
    assert (Hnd1 : NoDup (ids (history st1))).
    { destruct Hh as [Hh|[Hh|(id & r & clock & result & prompt & He & Hh)]];
        rewrite Hh; [exact Hnd|constructor|].
      subst e. apply ids_prepend; [exact Hnd|].
      now apply negb_true_iff in Hnow. }
    destruct (IH st1 Hnd1 Hlater) as (st' & Hrun & Hnd').
    exists st'. cbn [run]. rewrite Hstep. split; [exact Hrun|exact Hnd'].
Qed.

Lemma ids_stay_unique_witness :
  NoDup (ids (history (started (browser None) [])))
  /\ fresh_ids (started (browser None) [])
       [GenerateModel (js "wing A"); Settle 0 (Resolved (glb "a.glb")) (clock_uuid "uA");
        GenerateModel (js "wing B"); Settle 1 (Resolved (glb "b.glb")) (clock_uuid "uB");
        SelectModel (js "uA")] = true
  /\ exists st',
       run (started (browser None) [])
         [GenerateModel (js "wing A"); Settle 0 (Resolved (glb "a.glb")) (clock_uuid "uA");
          GenerateModel (js "wing B"); Settle 1 (Resolved (glb "b.glb")) (clock_uuid "uB");
          SelectModel (js "uA")] = Returned st'
       /\ NoDup (ids (history st')).
Proof.
  split; [constructor|]. split; [vm_compute; reflexivity|].
  apply (ids_stay_unique (started (browser None) [])
           [GenerateModel (js "wing A"); Settle 0 (Resolved (glb "a.glb")) (clock_uuid "uA");
            GenerateModel (js "wing B"); Settle 1 (Resolved (glb "b.glb")) (clock_uuid "uB");
            SelectModel (js "uA")]);
    [constructor|vm_compute; reflexivity].
Defined.

(** C9 as stated fails on a load from the store: the stored array is
    taken as it is, so two stored elements with one id are two history
    elements with one id. *)
Lemma loaded_history_repeats_id :
  exists st,
    mount (browser (Some (js "[" ++ text_id_x ++ js "," ++ text_id_x ++ js "]")))
    = Returned st
    /\ ids (history st) = [Some (JStr (js "x")); Some (JStr (js "x"))]
    /\ ~ NoDup (ids (history st)).
Proof.
  eexists. split; [vm_compute; reflexivity|]. split; [reflexivity|].
  intros H. inversion H as [|x l Hin _]. apply Hin. now left.
Qed.

(** Without [crypto.randomUUID] the id is the millisecond clock: two
    responses within one millisecond give two records one id. *)
Lemma same_millisecond_repeats_id :
  exists st,
    run (started (browser None) [])
      [GenerateModel (js "wing A"); GenerateModel (js "wing B");
       Settle 0 (Resolved (glb "a.glb")) (clock_ms 1762041600000);
       Settle 1 (Resolved (glb "b.glb")) (clock_ms 1762041600000)]
    = Returned st
    /\ ids (history st) = [Some (JStr (js "1762041600000"));
                           Some (JStr (js "1762041600000"))].
Proof.
  eexists. split; [vm_compute; reflexivity|reflexivity].
Qed.

(** ** Reading the store *)

Lemma JSON_parse_empty : JSON_parse [] = Thrown SyntaxError.
Proof. reflexivity. Qed.

(** [readHistory] with a window and a working [getItem]. *)
Lemma readHistory_stored w :
  window_defined w = true ->
  getItem_works w = true ->
  readHistory w
  = match stored w with
    | None => Returned ([], [])
    | Some text =>
        match text with
        | [] => Returned ([], [])
        | _ :: _ =>
            match JSON_parse text with
            | Returned (JArr items) => Returned (items, [])
            | Returned _ => Returned ([], [])
            | Thrown e => Returned ([], [ParseWarning e])
            end
        end
    end.
Proof.
  intros Hw Hg. unfold readHistory, getItem. rewrite Hw, Hg. cbn [negb bind].
  destruct (stored w) as [[|c text]|]; try reflexivity.
  destruct (JSON_parse (c :: text)) as [[]|e]; reflexivity.
Qed.

(** C7. Whatever the store holds, [readHistory] returns and does not
    throw; it returns the empty history when the value is absent, empty,
    not parseable, or parses to something that is not an array (and also
    when there is no window or the store cannot be read). *)
Theorem readHistory_never_throws (w : Window) :
  exists h warnings,
    readHistory w = Returned (h, warnings)
    /\ (window_defined w = false -> h = [])
    /\ (getItem_works w = false -> h = [])
    /\ (stored w = None -> h = [])
    /\ (stored w = Some [] -> h = [])
    /\ (forall text e,
          stored w = Some text -> JSON_parse text = Thrown e -> h = [])
    /\ (forall text v,
          stored w = Some text -> JSON_parse text = Returned v ->
          (forall items, v <> JArr items) -> h = []).
Proof.
  destruct (window_defined w) eqn:Hw.
  2:{ exists [], []. unfold readHistory. rewrite Hw. repeat split. }
  destruct (getItem_works w) eqn:Hg.
  2:{ exists [], [ParseWarning StorageError].
      unfold readHistory, getItem. rewrite Hw, Hg. repeat split. }
  rewrite (readHistory_stored w Hw Hg).
  destruct (stored w) as [[|c raw]|] eqn:Hs.
  - exists [], []. repeat split.
  - destruct (JSON_parse (c :: raw)) as [v|e] eqn:Hp.
    + destruct v as [| | | |items|];
        try (exists [], []; repeat split; reflexivity).
      exists items, []. split; [reflexivity|].
      repeat split; try discriminate.
      * intros text e [= <-]. congruence.
      * intros text v [= <-] Hv Hna. rewrite Hp in Hv. injection Hv as <-.
        now destruct (Hna items).
    + exists [], [ParseWarning e]. repeat split.
  - exists [], []. repeat split.
Qed.





(** ** JSON.parse after JSON.stringify *)

(** *** String literals *)

Lemma hex_value_digit n : (n < 16)%N -> hex_value (hex_digit n) = Some n.
Proof.
  intros Hn. destruct n as [|p]; [reflexivity|].
  do 4 (try (destruct p as [p|p|]; try reflexivity)); lia.
Qed.

Lemma hex4_unicode_escape c :
  (c < 65536)%N ->
  hex4 (hex_digit (c / 4096 mod 16)) (hex_digit (c / 256 mod 16))
       (hex_digit (c / 16 mod 16)) (hex_digit (c mod 16)) = Some c.
Proof.
  intros Hc. unfold hex4.
  rewrite !hex_value_digit by (apply N.mod_lt; discriminate).
  f_equal.
  pose proof (N.div_mod c 16 ltac:(discriminate)) as H0.
  pose proof (N.div_mod (c / 16) 16 ltac:(discriminate)) as H1.
  pose proof (N.div_mod (c / 256) 16 ltac:(discriminate)) as H2.
  replace (c / 16 / 16)%N with (c / 256)%N in H1
    by (rewrite N.Div0.div_div; reflexivity).
  replace (c / 256 / 16)%N with (c / 4096)%N in H2
    by (rewrite N.Div0.div_div; reflexivity).
  assert (H3 : (c / 4096 < 16)%N)
    by (apply N.Div0.div_lt_upper_bound; exact Hc).
  rewrite (N.mod_small (c / 4096) 16 H3). lia.
Qed.

Lemma parse_chars_plain c r :
  (32 <= c)%N -> c <> 34%N -> c <> 92%N ->
  parse_chars (c :: r) = cons_unit c (parse_chars r).
Proof.
  intros H32 H34 H92. cbn [parse_chars].
  rewrite (proj2 (N.eqb_neq c 34) H34), (proj2 (N.eqb_neq c 92) H92).
  now rewrite (proj2 (N.ltb_ge c 32) H32).
Qed.

Lemma parse_chars_unicode_escape c r :
  (c < 65536)%N ->
  parse_chars (unicode_escape c ++ r) = cons_unit c (parse_chars r).
Proof.
  intros Hc. unfold unicode_escape. cbn [app parse_chars].
  change (92 =? 34)%N with false. change (92 =? 92)%N with true.
  change (117 =? 117)%N with true. cbv iota.
  now rewrite (hex4_unicode_escape c Hc).
Qed.

Lemma parse_chars_quote_unit c r :
  (c < 65536)%N ->
  parse_chars (quote_unit c ++ r) = cons_unit c (parse_chars r).
Proof.
  intros Hc. unfold quote_unit.
  destruct (N.eqb_spec c 8) as [->|H8]; [reflexivity|].
  destruct (N.eqb_spec c 9) as [->|H9]; [reflexivity|].
  destruct (N.eqb_spec c 10) as [->|H10]; [reflexivity|].
  destruct (N.eqb_spec c 12) as [->|H12]; [reflexivity|].
  destruct (N.eqb_spec c 13) as [->|H13]; [reflexivity|].
  destruct (N.eqb_spec c 34) as [->|H34]; [reflexivity|].
  destruct (N.eqb_spec c 92) as [->|H92]; [reflexivity|].
  destruct (N.ltb_spec c 32) as [Hlt|Hge]; cbn [orb].
  - now apply parse_chars_unicode_escape.
  - destruct (is_high_surrogate c || is_low_surrogate c).
    + now apply parse_chars_unicode_escape.
    + now apply parse_chars_plain.
Qed.

Lemma surrogate_plain c :
  is_high_surrogate c = true \/ is_low_surrogate c = true ->
  (32 <= c)%N /\ c <> 34%N /\ c <> 92%N.
Proof.
  unfold is_high_surrogate, is_low_surrogate.
  intros [H|H]; apply andb_true_iff in H as [H _]; apply N.leb_le in H; lia.
Qed.

Lemma parse_chars_quote_units_len n :
  forall s, List.length s <= n ->
    forallb code_unit s = true ->
    forall rest, parse_chars (quote_units s ++ 34%N :: rest) = Some (s, rest).
Proof.
  induction n as [|n IH]; intros [|c t] Hlen Hs rest; simpl in Hlen;
    try reflexivity; try lia.
  cbn [forallb] in Hs. apply andb_true_iff in Hs as [Hc Ht].
  apply N.ltb_lt in Hc.
  destruct t as [|d t'].
  - cbn [quote_units]. rewrite parse_chars_quote_unit by exact Hc.
    reflexivity.
  - cbn [quote_units].
    destruct (is_high_surrogate c && is_low_surrogate d) eqn:Hpair.
    + apply andb_true_iff in Hpair as [Hh Hl].
      destruct (surrogate_plain c (or_introl Hh)) as (Hc1 & Hc2 & Hc3).
      destruct (surrogate_plain d (or_intror Hl)) as (Hd1 & Hd2 & Hd3).
      cbn [app]. rewrite (parse_chars_plain c _ Hc1 Hc2 Hc3).
      rewrite (parse_chars_plain d _ Hd1 Hd2 Hd3).
      cbn [forallb] in Ht. apply andb_true_iff in Ht as [_ Ht'].
      rewrite (IH t') by (simpl in Hlen; lia || exact Ht'). reflexivity.
    + rewrite <- app_assoc, parse_chars_quote_unit by exact Hc.
      rewrite (IH (d :: t')) by (simpl in *; lia || exact Ht). reflexivity.
Qed.

Lemma parse_chars_quote_units s rest :
  forallb code_unit s = true ->
  parse_chars (quote_units s ++ 34%N :: rest) = Some (s, rest).
Proof.
  intros Hs. now apply (parse_chars_quote_units_len (List.length s)).
Qed.

(** *** Numbers *)

Lemma span_digits_split s ds r : span_digits s = (ds, r) -> s = ds ++ r.
Proof.
  revert ds r. induction s as [|c t IH]; intros ds r H; simpl in H.
  - now injection H as <- <-.
  - destruct (is_digit c).
    + destruct (span_digits t) as [ds' r'] eqn:E. injection H as <- <-.
      simpl. f_equal. now apply IH.
    + now injection H as <- <-.
Qed.

Lemma span_digits_app s ds r rest :
  span_digits s = (ds, r) ->
  number_end rest = true ->
  span_digits (s ++ rest) = (ds, r ++ rest).
Proof.
  intros H Hend. revert ds r H. induction s as [|c t IH]; intros ds r H;
    simpl in H.
  - injection H as <- <-. destruct rest as [|d rest]; [reflexivity|].
    simpl in *. destruct (is_digit d); [discriminate|reflexivity].
  - simpl. destruct (is_digit c).
    + destruct (span_digits t) as [ds' r'] eqn:E. injection H as <- <-.
      now rewrite (IH _ _ eq_refl).
    + now injection H as <- <-.
Qed.

Lemma scan_int_split s i r : scan_int s = Some (i, r) -> s = i ++ r.
Proof.
  destruct s as [|c t]; simpl; [discriminate|].
  destruct (c =? 48)%N; [now intros [= <- <-]|].
  destruct (is_digit c); [|discriminate].
  destruct (span_digits t) as [ds r'] eqn:E. intros [= <- <-].
  simpl. f_equal. now apply span_digits_split.
Qed.

Lemma scan_int_app s i r rest :
  scan_int s = Some (i, r) ->
  number_end rest = true ->
  scan_int (s ++ rest) = Some (i, r ++ rest).
Proof.
  intros H Hend. destruct s as [|c t]; simpl in *; [discriminate|].
  destruct (c =? 48)%N; [now injection H as <- <-|].
  destruct (is_digit c); [|discriminate].
  destruct (span_digits t) as [ds r'] eqn:E. injection H as <- <-.
  now rewrite (span_digits_app _ _ _ _ E Hend).
Qed.

Lemma scan_frac_split s f r : scan_frac s = Some (f, r) -> s = f ++ r.
Proof.
  destruct s as [|c t]; simpl; [now intros [= <- <-]|].
  destruct (c =? 46)%N; [|now intros [= <- <-]].
  destruct (span_digits t) as [[|d ds] r'] eqn:E; [discriminate|].
  intros [= <- <-]. simpl. f_equal.
  now apply (span_digits_split t (d :: ds)).
Qed.

Lemma scan_frac_app s f r rest :
  scan_frac s = Some (f, r) ->
  number_end rest = true ->
  scan_frac (s ++ rest) = Some (f, r ++ rest).
Proof.
  intros H Hend. destruct s as [|c t]; simpl in *.
  - injection H as <- <-. destruct rest as [|d rest]; [reflexivity|].
    simpl in *. destruct (d =? 46)%N; [|reflexivity].
    rewrite !orb_true_r in Hend. discriminate.
  - destruct (c =? 46)%N; [|now injection H as <- <-].
    destruct (span_digits t) as [[|d ds] r'] eqn:E; [discriminate|].
    injection H as <- <-. now rewrite (span_digits_app _ _ _ _ E Hend).
Qed.

Lemma scan_exp_sign_split s sg r : scan_exp_sign s = (sg, r) -> s = sg ++ r.
Proof.
  destruct s as [|c t]; simpl; [now intros [= <- <-]|].
  destruct ((c =? 43)%N || (c =? 45)%N); now intros [= <- <-].
Qed.

Lemma scan_exp_split s e r : scan_exp s = Some (e, r) -> s = e ++ r.
Proof.
  destruct s as [|c t]; simpl; [now intros [= <- <-]|].
  destruct ((c =? 101)%N || (c =? 69)%N); [|now intros [= <- <-]].
  destruct (scan_exp_sign t) as [sg t1] eqn:Es.
  destruct (span_digits t1) as [[|d ds] r'] eqn:E; [discriminate|].
  intros [= <- <-]. simpl. f_equal. rewrite <- app_assoc.
  rewrite <- (span_digits_split _ _ _ E). now apply scan_exp_sign_split.
Qed.

Lemma scan_exp_app s e r rest :
  scan_exp s = Some (e, r) ->
  number_end rest = true ->
  scan_exp (s ++ rest) = Some (e, r ++ rest).
Proof.
  intros H Hend. destruct s as [|c t]; simpl in *.
  - injection H as <- <-. destruct rest as [|d rest]; [reflexivity|].
    simpl in *. destruct ((d =? 101)%N || (d =? 69)%N) eqn:Ed; [|reflexivity].
    apply negb_true_iff in Hend. rewrite <- !orb_assoc in Hend.
    apply orb_false_iff in Hend as [_ Hend].
    apply orb_false_iff in Hend as [_ Hend]. congruence.
  - destruct ((c =? 101)%N || (c =? 69)%N); [|now injection H as <- <-].
    destruct (scan_exp_sign t) as [sg t1] eqn:Es.
    destruct (span_digits t1) as [[|d ds] r'] eqn:E; [discriminate|].
    injection H as <- <-.
    assert (Es' : scan_exp_sign (t ++ rest) = (sg, t1 ++ rest)).
    { destruct t as [|x t']; simpl in Es.
      - injection Es as <- <-. discriminate.
      - simpl. destruct ((x =? 43)%N || (x =? 45)%N);
          now injection Es as <- <-. }
    rewrite Es'. now rewrite (span_digits_app _ _ _ _ E Hend).
Qed.

Lemma scan_number_split s l r : scan_number s = Some (l, r) -> s = l ++ r.
Proof.
  unfold scan_number. destruct (scan_sign s) as [sg s1] eqn:Esg.
  destruct (scan_int s1) as [[i s2]|] eqn:Ei; [|discriminate].
  destruct (scan_frac s2) as [[f s3]|] eqn:Ef; [|discriminate].
  destruct (scan_exp s3) as [[e s4]|] eqn:Ee; [|discriminate].
  intros [= <- <-].
  rewrite <- !app_assoc.
  rewrite <- (scan_exp_split _ _ _ Ee), <- (scan_frac_split _ _ _ Ef).
  rewrite <- (scan_int_split _ _ _ Ei).
  destruct s as [|c t]; simpl in Esg; [now injection Esg as <- <-|].
  destruct (c =? 45)%N; now injection Esg as <- <-.
Qed.

Lemma scan_number_app s l r rest :
  scan_number s = Some (l, r) ->
  number_end rest = true ->
  scan_number (s ++ rest) = Some (l, r ++ rest).
Proof.
  unfold scan_number. intros H Hend.
  destruct (scan_sign s) as [sg s1] eqn:Esg.
  destruct (scan_int s1) as [[i s2]|] eqn:Ei; [|discriminate].
  destruct (scan_frac s2) as [[f s3]|] eqn:Ef; [|discriminate].
  destruct (scan_exp s3) as [[e s4]|] eqn:Ee; [|discriminate].
  injection H as <- <-.
  assert (Esg' : scan_sign (s ++ rest) = (sg, s1 ++ rest)).
  { destruct s as [|c t]; simpl in Esg.
    - injection Esg as <- <-. discriminate.
    - simpl. destruct (c =? 45)%N; now injection Esg as <- <-. }
  rewrite Esg', (scan_int_app _ _ _ _ Ei Hend).
  now rewrite (scan_frac_app _ _ _ _ Ef Hend), (scan_exp_app _ _ _ _ Ee Hend).
Qed.

Lemma number_literal_start c t :
  number_literal (c :: t) = true -> c = 45%N \/ is_digit c = true.
Proof.
  unfold number_literal, scan_number. cbn [scan_sign].
  destruct (N.eqb_spec c 45) as [->|Hc]; [now left|].
  cbn [scan_int]. destruct (N.eqb_spec c 48) as [->|H0]; [now right|].
  destruct (is_digit c); [now right|discriminate].
Qed.

Lemma number_literal_scan literal rest :
  number_literal literal = true ->
  number_end rest = true ->
  scan_number (literal ++ rest) = Some (literal, rest).
Proof.
  unfold number_literal. intros H Hend.
  destruct (scan_number literal) as [[l [|x r]]|] eqn:E; try discriminate.
  pose proof (scan_number_split _ _ _ E) as Hl. rewrite app_nil_r in Hl.
  subst l. exact (scan_number_app _ _ _ _ E Hend).
Qed.

(** *** Values *)

Lemma value_start_facts c :
  value_start c = true ->
  is_json_space c = false /\ (c =? 93)%N = false /\ (c =? 125)%N = false.
Proof.
  unfold value_start, is_json_space, is_digit. intros H.
  repeat rewrite orb_true_iff in H.
  destruct H as [[[[[[[H|H]|H]|H]|H]|H]|H]|H];
    try (apply N.eqb_eq in H; subst c; repeat split; reflexivity).
  apply andb_true_iff in H as [H1 H2].
  apply N.leb_le in H1. apply N.leb_le in H2.
  repeat rewrite orb_false_iff. repeat split; apply N.eqb_neq; lia.
Qed.

Lemma skip_ws_stop c t : is_json_space c = false -> skip_ws (c :: t) = c :: t.
Proof. intros H. cbn [skip_ws]. now rewrite H. Qed.

Lemma skip_ws_start c t : value_start c = true -> skip_ws (c :: t) = c :: t.
Proof.
  intros H. cbn [skip_ws].
  now rewrite (proj1 (value_start_facts c H)).
Qed.

(** A finite number that is not negative zero is written as the
    literal that carries it. *)
Lemma well_formed_number literal :
  well_formed (JNum literal) = true ->
  number_literal literal = true /\ stringify (JNum literal) = literal.
Proof.
  cbn [well_formed stringify]. intros H.
  apply andb_true_iff in H as [H Hz]. apply negb_true_iff in Hz.
  rewrite H, Hz. apply andb_true_iff in H as [H _]. now split.
Qed.

Lemma stringify_start v :
  well_formed v = true ->
  exists c t, stringify v = c :: t /\ value_start c = true.
Proof.
  destruct v as [|[]|literal|s|items|props]; intros Hwf;
    try (eexists; eexists; split; reflexivity).
  destruct (well_formed_number literal Hwf) as [Hlit ->].
  clear Hwf. rename Hlit into Hwf.
  destruct literal as [|c t]; [discriminate|].
  exists c, t. split; [reflexivity|].
  destruct (number_literal_start c t Hwf) as [->|Hd]; [reflexivity|].
  unfold value_start. rewrite Hd. now rewrite !orb_true_r.
Qed.

Lemma parse_value_string f t :
  parse_value (S f) (34%N :: t)
  = match parse_chars t with
    | Some (str, r) => Some (JStr str, r)
    | None => None
    end.
Proof. reflexivity. Qed.

Lemma parse_value_array f t :
  parse_value (S f) (91%N :: t)
  = match skip_ws t with
    | d :: t' =>
        if (d =? 93)%N then Some (JArr [], t')
        else match parse_elements f t with
             | Some (items, r) => Some (JArr items, r)
             | None => None
             end
    | [] => None
    end.
Proof. reflexivity. Qed.

Lemma parse_value_object f t :
  parse_value (S f) (123%N :: t)
  = match skip_ws t with
    | d :: t' =>
        if (d =? 125)%N then Some (JObj [], t')
        else match parse_members f t with
             | Some (members, r) => Some (JObj (obj_of_members members), r)
             | None => None
             end
    | [] => None
    end.
Proof. reflexivity. Qed.

Lemma parse_value_number f c t :
  c = 45%N \/ is_digit c = true ->
  parse_value (S f) (c :: t)
  = match scan_number (c :: t) with
    | Some (literal, r) => Some (JNum literal, r)
    | None => None
    end.
Proof.
  intros [->|Hd]; [reflexivity|].
  assert (Hr : (48 <= c <= 57)%N).
  { unfold is_digit in Hd. apply andb_true_iff in Hd as [H1 H2].
    apply N.leb_le in H1. apply N.leb_le in H2. lia. }
  cbn [parse_value skip_ws]. unfold is_json_space.
  rewrite (proj2 (N.eqb_neq c 32)), (proj2 (N.eqb_neq c 9)),
    (proj2 (N.eqb_neq c 10)), (proj2 (N.eqb_neq c 13)) by lia.
  cbn [orb].
  now rewrite (proj2 (N.eqb_neq c 34)), (proj2 (N.eqb_neq c 91)),
    (proj2 (N.eqb_neq c 123)), (proj2 (N.eqb_neq c 110)),
    (proj2 (N.eqb_neq c 116)), (proj2 (N.eqb_neq c 102)) by lia.
Qed.

Lemma parse_elements_step f s :
  parse_elements (S f) s
  = match parse_value f s with
    | Some (v, r) =>
        match skip_ws r with
        | c :: r' =>
            if (c =? 44)%N then
              match parse_elements f r' with
              | Some (items, r'') => Some (v :: items, r'')
              | None => None
              end
            else if (c =? 93)%N then Some ([v], r')
            else None
        | [] => None
        end
    | None => None
    end.
Proof. reflexivity. Qed.

Lemma parse_members_step f t :
  parse_members (S f) (34%N :: t)
  = match parse_chars t with
    | Some (k, r) =>
        match skip_ws r with
        | c :: r1 =>
            if (c =? 58)%N then
              match parse_value f r1 with
              | Some (v, r2) =>
                  match skip_ws r2 with
                  | c' :: r3 =>
                      if (c' =? 44)%N then
                        match parse_members f r3 with
                        | Some (members, r4) => Some ((k, v) :: members, r4)
                        | None => None
                        end
                      else if (c' =? 125)%N then Some ([(k, v)], r3)
                      else None
                  | [] => None
                  end
              | None => None
              end
            else None
        | [] => None
        end
    | None => None
    end.
Proof. reflexivity. Qed.

Lemma size_pos v : 1 <= size v.
Proof. destruct v; simpl; lia. Qed.

Lemma elements_read_back items :
  Forall reads_back items ->
  items <> [] ->
  forallb well_formed items = true ->
  forall fuel rest,
    list_sum (map size items) + List.length items <= fuel ->
    parse_elements fuel (join_commas (map stringify items) ++ 93%N :: rest)
    = Some (items, rest).
Proof.
  induction 1 as [|v more Hv Hmore IH]; intros Hne Hwf fuel rest Hfuel;
    [contradiction|].
  cbn [forallb] in Hwf. apply andb_true_iff in Hwf as [Hwv Hwm].
  change (size v + list_sum (map size more) + S (List.length more) <= fuel)
    in Hfuel.
  destruct fuel as [|f]; [lia|]. rewrite parse_elements_step.
  destruct more as [|v2 more].
  - cbn [map join_commas].
    rewrite (Hv Hwv f (93%N :: rest)) by (lia || reflexivity).
    reflexivity.
  - change (join_commas (map stringify (v :: v2 :: more)))
      with (stringify v ++ 44%N :: join_commas (map stringify (v2 :: more))).
    rewrite <- app_assoc. cbn [app].
    rewrite (Hv Hwv f) by (lia || reflexivity).
    pose proof (size_pos v) as Hpos.
    rewrite skip_ws_stop by reflexivity.
    change (44 =? 44)%N with true. cbv iota.
    rewrite (IH ltac:(discriminate) Hwm f rest) by lia.
    reflexivity.
Qed.

Lemma members_read_back (props : list (jstring * json)) :
  Forall (fun kv => reads_back (snd kv)) props ->
  props <> [] ->
  forallb (fun kv => match kv with
                     | (k, x) => forallb code_unit k && well_formed x
                     end) props = true ->
  forall fuel rest,
    list_sum (map (fun kv => match kv with (_, x) => size x end) props)
    + List.length props <= fuel ->
    parse_members fuel
      (join_commas
         (map (fun kv => match kv with
                         | (k, x) => quote k ++ 58%N :: stringify x
                         end) props) ++ 125%N :: rest)
    = Some (props, rest).
Proof.
  induction 1 as [|[k x] more Hx Hmore IH]; intros Hne Hwf fuel rest Hfuel;
    [contradiction|].
  cbn [forallb] in Hwf. apply andb_true_iff in Hwf as [Hwx Hwm].
  apply andb_true_iff in Hwx as [Hk Hwx]. cbn [snd] in Hx.
  change (size x
          + list_sum (map (fun kv => match kv with (_, y) => size y end) more)
          + S (List.length more) <= fuel) in Hfuel.
  destruct fuel as [|f]; [lia|].
  pose proof (size_pos x) as Hpos.
  destruct more as [|kv2 more].
  - cbn [map join_commas]. unfold quote. cbn [app].
    rewrite <- !app_assoc. cbn [app].
    rewrite parse_members_step, (parse_chars_quote_units k _ Hk).
    rewrite skip_ws_stop by reflexivity.
    change (58 =? 58)%N with true. cbv iota.
    rewrite (Hx Hwx f (125%N :: rest)) by (lia || reflexivity).
    reflexivity.
  - set (texts := map (fun kv => match kv with
                                 | (k0, x0) => quote k0 ++ 58%N :: stringify x0
                                 end) (kv2 :: more)) in *.
    change (join_commas
              (map (fun kv => match kv with
                              | (k0, x0) => quote k0 ++ 58%N :: stringify x0
                              end) ((k, x) :: kv2 :: more)))
      with ((quote k ++ 58%N :: stringify x) ++ 44%N :: join_commas texts).
    unfold quote. cbn [app]. repeat (rewrite <- app_assoc; cbn [app]).
    rewrite parse_members_step, (parse_chars_quote_units k _ Hk).
    rewrite skip_ws_stop by reflexivity.
    change (58 =? 58)%N with true. cbv iota.
    rewrite (Hx Hwx f) by (lia || reflexivity).
    rewrite skip_ws_stop by reflexivity.
    change (44 =? 44)%N with true. cbv iota.
    rewrite (IH ltac:(discriminate) Hwm f rest) by lia.
    reflexivity.
Qed.

Lemma obj_set_new k v acc :
  existsb (jstring_eqb k) (map fst acc) = false ->
  obj_set k v acc = acc ++ [(k, v)].
Proof.
  induction acc as [|[k' v'] acc IH]; simpl; [reflexivity|].
  intros H. apply orb_false_iff in H as [Hk Hacc].
  rewrite Hk. f_equal. now apply IH.
Qed.

Lemma fold_obj_set_distinct props :
  forall acc,
    distinct (map fst props) = true ->
    (forall k, In k (map fst props) ->
               existsb (jstring_eqb k) (map fst acc) = false) ->
    fold_left (fun a kv => obj_set (fst kv) (snd kv) a) props acc
    = acc ++ props.
Proof.
  induction props as [|[k v] props IH]; intros acc Hd Hacc; simpl.
  - now rewrite app_nil_r.
  - simpl in Hd. apply andb_true_iff in Hd as [Hk Hd].
    apply negb_true_iff in Hk.
    rewrite obj_set_new by (apply Hacc; now left).
    rewrite IH; [now rewrite <- app_assoc|exact Hd|].
    intros k' Hin. rewrite map_app, existsb_app. apply orb_false_iff. split.
    + apply Hacc. now right.
    + simpl. rewrite orb_false_r. apply jstring_eqb_neq. intros ->.
      assert (Hex : existsb (jstring_eqb k) (map fst props) = true).
      { apply existsb_exists. exists k. split; [exact Hin|].
        apply jstring_eqb_refl. }
      congruence.
Qed.

Lemma obj_of_members_distinct props :
  distinct (map fst props) = true -> obj_of_members props = props.
Proof.
  intros Hd. unfold obj_of_members.
  now rewrite fold_obj_set_distinct by (exact Hd || reflexivity).
Qed.

Lemma join_commas_start parts c t rest :
  parts = (c :: t) :: rest -> exists t', join_commas parts = c :: t'.
Proof.
  intros ->. destruct rest; simpl; eauto.
Qed.

(** Reading the text of a value gives the value back and stops right
    after it. *)
Lemma stringify_reads_back v : reads_back v.
Proof.
  induction v as [|b|literal|s|items IH|props IH] using json_nested_ind;
    intros Hwf fuel rest Hfuel Hend;
    (destruct fuel as [|f]; [simpl in Hfuel; lia|]).
  - reflexivity.
  - destruct b; reflexivity.
  - destruct (well_formed_number literal Hwf) as [Hlit ->].
    clear Hwf. rename Hlit into Hwf.
    destruct literal as [|c t]; [discriminate|].
    rewrite <- app_comm_cons.
    rewrite parse_value_number by exact (number_literal_start c t Hwf).
    rewrite app_comm_cons, (number_literal_scan _ _ Hwf Hend). reflexivity.
  - cbn [stringify well_formed] in *. unfold quote. cbn [app].
    rewrite <- app_assoc. cbn [app].
    now rewrite parse_value_string, (parse_chars_quote_units s rest Hwf).
  - cbn [stringify well_formed size] in *. cbn [app].
    rewrite <- app_assoc. cbn [app]. rewrite parse_value_array.
    destruct items as [|v more]; [reflexivity|].
    assert (Hv : well_formed v = true)
      by (cbn [forallb] in Hwf; now apply andb_true_iff in Hwf as [Hv _]).
    destruct (stringify_start v Hv) as (c & t & Ev & Hc).
    destruct (join_commas_start (map stringify (v :: more)) c t
                (map stringify more)) as (t' & Ej);
      [cbn [map]; now rewrite Ev|].
    rewrite (elements_read_back (v :: more) IH ltac:(discriminate) Hwf f rest)
      by lia.
    rewrite Ej. cbn [app]. rewrite (skip_ws_start c _ Hc).
    now rewrite (proj1 (proj2 (value_start_facts c Hc))).
  - cbn [stringify well_formed size] in *. cbn [app].
    rewrite <- app_assoc. cbn [app]. rewrite parse_value_object.
    destruct props as [|[k x] more]; [reflexivity|].
    apply andb_true_iff in Hwf as [Hwf Hd].
    rewrite (members_read_back ((k, x) :: more) IH ltac:(discriminate) Hwf f
               rest) by lia.
    rewrite (obj_of_members_distinct _ Hd).
    destruct more; reflexivity.
Qed.

(** *** The fuel of JSON.parse is enough for a stringified value *)

Lemma elements_size items :
  Forall (fun v => well_formed v = true ->
                   size v <= List.length (stringify v)) items ->
  forallb well_formed items = true ->
  list_sum (map size items) + List.length items
  <= S (List.length (join_commas (map stringify items))).
Proof.
  induction 1 as [|v more Hv Hmore IH]; intros Hwf; [simpl; lia|].
  cbn [forallb] in Hwf. apply andb_true_iff in Hwf as [Hwv Hwm].
  specialize (Hv Hwv). specialize (IH Hwm).
  change (size v + list_sum (map size more) + S (List.length more)
          <= S (List.length (join_commas (map stringify (v :: more))))).
  destruct more as [|v2 more].
  - simpl. lia.
  - change (join_commas (map stringify (v :: v2 :: more)))
      with (stringify v ++ 44%N :: join_commas (map stringify (v2 :: more))).
    rewrite length_app. cbn [List.length] in *. lia.
Qed.

Lemma members_size (props : list (jstring * json)) :
  Forall (fun kv => well_formed (snd kv) = true ->
                    size (snd kv) <= List.length (stringify (snd kv))) props ->
  forallb (fun kv => match kv with
                     | (k, x) => forallb code_unit k && well_formed x
                     end) props = true ->
  list_sum (map (fun kv => match kv with (_, x) => size x end) props)
  + List.length props
  <= S (List.length
          (join_commas
             (map (fun kv => match kv with
                             | (k, x) => quote k ++ 58%N :: stringify x
                             end) props))).
Proof.
  induction 1 as [|[k x] more Hx Hmore IH]; intros Hwf; [simpl; lia|].
  cbn [forallb] in Hwf. apply andb_true_iff in Hwf as [Hwx Hwm].
  apply andb_true_iff in Hwx as [_ Hwx]. cbn [snd] in Hx.
  specialize (Hx Hwx). specialize (IH Hwm).
  change (size x
          + list_sum (map (fun kv => match kv with (_, y) => size y end) more)
          + S (List.length more)
          <= S (List.length
                  (join_commas
                     (map (fun kv => match kv with
                                     | (k0, x0) => quote k0 ++ 58%N :: stringify x0
                                     end) ((k, x) :: more))))).
  destruct more as [|kv2 more].
  - cbn [map join_commas]. rewrite length_app. simpl. lia.
  - set (texts := map (fun kv => match kv with
                                 | (k0, x0) => quote k0 ++ 58%N :: stringify x0
                                 end) (kv2 :: more)) in *.
    change (join_commas
              (map (fun kv => match kv with
                              | (k0, x0) => quote k0 ++ 58%N :: stringify x0
                              end) ((k, x) :: kv2 :: more)))
      with ((quote k ++ 58%N :: stringify x) ++ 44%N :: join_commas texts).
    rewrite !length_app. cbn [List.length] in *. lia.
Qed.

Lemma size_le_length v :
  well_formed v = true -> size v <= List.length (stringify v).
Proof.
  induction v as [|b|literal|s|items IH|props IH] using json_nested_ind;
    intros Hwf.
  - simpl. lia.
  - destruct b; simpl; lia.
  - destruct (well_formed_number literal Hwf) as [Hlit ->].
    destruct literal; [discriminate|simpl; lia].
  - cbn [stringify size]. unfold quote. simpl. lia.
  - cbn [stringify well_formed size] in *.
    pose proof (elements_size items IH Hwf).
    cbn [List.length]. rewrite length_app. cbn [List.length]. lia.
  - cbn [stringify well_formed size] in *.
    apply andb_true_iff in Hwf as [Hwf _].
    pose proof (members_size props IH Hwf).
    cbn [List.length]. rewrite length_app. cbn [List.length]. lia.
Qed.

(** [JSON.parse(JSON.stringify(v))] is [v]. *)
Lemma JSON_parse_stringify v :
  well_formed v = true -> JSON_parse (JSON_stringify v) = Returned v.
Proof.
  intros Hwf. unfold JSON_parse, JSON_stringify.
  pose proof (stringify_reads_back v Hwf (S (List.length (stringify v))) []
                ltac:(pose proof (size_le_length v Hwf); lia) eq_refl) as H.
  rewrite app_nil_r in H. now rewrite H.
Qed.

(** ** The codec *)

Lemma readHistory_persistHistory (w : Window) (h : list json) :
  window_defined w = true ->
  getItem_works w = true ->
  setItem_works w = true ->
  forallb well_formed h = true ->
  exists w',
    persistHistory w h = Returned (w', [])
    /\ stored w' = Some (JSON_stringify (JArr h))
    /\ readHistory w' = Returned (h, []).
Proof.
  intros Hw Hg Hs Hwf. unfold persistHistory, setItem. rewrite Hw, Hs.
  cbn [negb bind try_catch]. eexists. split; [reflexivity|].
  split; [reflexivity|].
  rewrite readHistory_stored by (cbn; first [assumption|reflexivity]).
  cbn [stored].
  pose proof (JSON_parse_stringify (JArr h) Hwf) as Hp.
  destruct (JSON_stringify (JArr h)) as [|c text] eqn:E; [discriminate|].
  now rewrite Hp.
Qed.

(** C6, as the code has it. A history of records whose strings are
    sequences of code units and whose metadata is JSON data with every
    number finite and not negative zero, written with [persistHistory]
    and read back with [readHistory], comes back unchanged and without a
    warning: decoding the encoded history gives the history. *)
Theorem history_round_trip (w : Window) (ms : list Types.GeneratedModel) :
  window_defined w = true ->
  getItem_works w = true ->
  setItem_works w = true ->
  forallb well_formed_model ms = true ->
  exists w',
    persistHistory w (map model_value ms) = Returned (w', [])
    /\ stored w' = Some (JSON_stringify (JArr (map model_value ms)))
    /\ readHistory w' = Returned (map model_value ms, []).
Proof.
  intros Hw Hg Hs Hwf.
  apply readHistory_persistHistory; try assumption.
  induction ms as [|m ms IH]; [reflexivity|].
  cbn [forallb map] in *. apply andb_true_iff in Hwf as [Hm Hms].
  apply andb_true_iff. split; [exact Hm|exact (IH Hms)].
Qed.

Lemma history_round_trip_witness :
  forallb well_formed_model [rich_model; sample_model "m1"] = true
  /\ exists w',
       persistHistory (browser None)
         (map model_value [rich_model; sample_model "m1"]) = Returned (w', [])
       /\ readHistory w'
          = Returned (map model_value [rich_model; sample_model "m1"], []).
Proof.
  split; [vm_compute; reflexivity|].
  destruct (history_round_trip (browser None) [rich_model; sample_model "m1"]
              eq_refl eq_refl eq_refl)
    as (w' & Hp & _ & Hr); [vm_compute; reflexivity|].
  exists w'. split; [exact Hp|exact Hr].
Defined.

(** C6 as stated fails for a number that JSON cannot carry: a record
    whose metadata holds a number read as Infinity is written with
    [null] in its place, and comes back with [null]. *)
Lemma infinite_number_comes_back_null :
  reads_as_infinite (js "1e400") = true
  /\ exists w' item metadata,
       persistHistory (browser None) [model_value overflow_model]
       = Returned (w', [])
       /\ readHistory w' = Returned ([item], [])
       /\ optional_get (model_value overflow_model) (js "metadata")
          = Some (JObj [(js "span", JNum (js "1e400"))])
       /\ optional_get item (js "metadata") = Some metadata
       /\ optional_get metadata (js "span") = Some JNull
       /\ [item] <> [model_value overflow_model].
Proof.
  split; [vm_compute; reflexivity|].
  eexists. eexists. eexists.
  split; [vm_compute; reflexivity|].
  split; [vm_compute; reflexivity|].
  split; [reflexivity|]. split; [reflexivity|]. split; [reflexivity|].
  discriminate.
Qed.

(** Negative zero comes back as zero. *)
Lemma negative_zero_comes_back_zero :
  JSON_parse (JSON_stringify (JArr [JNum (js "-0"); JNum (js "-1e-400")]))
  = Returned (JArr [JNum (js "0"); JNum (js "0")]).
Proof. vm_compute. reflexivity. Qed.

(** Where the classes of literals begin: the largest double and the
    smallest one are read as themselves, the literals just past them as
    Infinity and as zero. *)
Lemma number_classes :
  reads_as_infinite (js "1.7976931348623158e308") = false
  /\ reads_as_infinite (js "1.7976931348623159e308") = true
  /\ reads_as_zero (js "3e-324") = false
  /\ reads_as_zero (js "2e-324") = true
  /\ reads_as_zero (js "0.000") = true
  /\ reads_as_negative_zero (js "-0.0e5") = true
  /\ reads_as_negative_zero (js "0") = false.
Proof. vm_compute. repeat split. Qed.

(** *** The fuel of JSON.parse is enough for every text *)

Lemma skip_ws_length s : List.length (skip_ws s) <= List.length s.
Proof.
  induction s as [|c t IH]; simpl; [lia|].
  destruct (is_json_space c); simpl; lia.
Qed.

Lemma parse_chars_length_le n :
  forall t k r,
    List.length t <= n -> parse_chars t = Some (k, r) ->
    List.length r < List.length t.
Proof.
  induction n as [|n IH]; intros [|c t] k r Hn H; simpl in Hn;
    try discriminate; try lia.
  cbn [parse_chars] in H.
  destruct (c =? 34)%N; [injection H as <- <-; simpl; lia|].
  destruct (c =? 92)%N.
  - destruct t as [|e t1]; [discriminate|].
    destruct (e =? 117)%N.
    + destruct t1 as [|a [|b [|x [|d t2]]]]; try discriminate.
      destruct (hex4 a b x d); [|discriminate].
      destruct (parse_chars t2) as [[k' r']|] eqn:E; [|discriminate].
      injection H as <- <-.
      pose proof (IH t2 k' r' ltac:(simpl in Hn; lia) E). simpl. lia.
    + destruct (unescape e); [|discriminate].
      destruct (parse_chars t1) as [[k' r']|] eqn:E; [|discriminate].
      injection H as <- <-.
      pose proof (IH t1 k' r' ltac:(simpl in Hn; lia) E). simpl. lia.
  - destruct (c <? 32)%N; [discriminate|].
    destruct (parse_chars t) as [[k' r']|] eqn:E; [|discriminate].
    injection H as <- <-.
    pose proof (IH t k' r' ltac:(lia) E). simpl. lia.
Qed.

Lemma parse_chars_length t k r :
  parse_chars t = Some (k, r) -> List.length r < List.length t.
Proof. apply (parse_chars_length_le (List.length t)). lia. Qed.

Lemma scan_number_length s l r :
  scan_number s = Some (l, r) -> List.length r < List.length s.
Proof.
  intros H. pose proof (scan_number_split _ _ _ H) as Hs.
  unfold scan_number in H. destruct (scan_sign s) as [sg s1].
  destruct (scan_int s1) as [[i s2]|] eqn:Ei; [|discriminate].
  destruct (scan_frac s2) as [[f s3]|]; [|discriminate].
  destruct (scan_exp s3) as [[e s4]|]; [|discriminate].
  injection H as <- <-. subst s. rewrite !length_app.
  assert (1 <= List.length i); [|lia].
  destruct s1 as [|c t]; simpl in Ei; [discriminate|].
  destruct (c =? 48)%N; [injection Ei as <- <-; simpl; lia|].
  destruct (is_digit c); [|discriminate].
  destruct (span_digits t). injection Ei as <- <-. simpl. lia.
Qed.

Lemma strip_prefix_length p s r :
  strip_prefix p s = Some r ->
  List.length s = List.length p + List.length r.
Proof.
  revert s. induction p as [|x p IH]; intros [|y s] H; simpl in *;
    try discriminate; try (injection H as <-; reflexivity).
  destruct (x =? y)%N; [|discriminate]. now rewrite (IH _ H).
Qed.

Lemma parse_literal_length name v s a r :
  name <> EmptyString ->
  parse_literal name v s = Some (a, r) ->
  List.length r < List.length s.
Proof.
  intros Hne H. unfold parse_literal in H.
  destruct (strip_prefix (js name) s) as [rest|] eqn:E; [|discriminate].
  injection H as <- <-. rewrite (strip_prefix_length _ _ _ E).
  destruct name; [contradiction|]. simpl. lia.
Qed.

Lemma parse_value_step f s :
  parse_value (S f) s
  = match skip_ws s with
    | [] => None
    | c :: t =>
        if (c =? 34)%N then
          match parse_chars t with
          | Some (str, r) => Some (JStr str, r)
          | None => None
          end
        else if (c =? 91)%N then
          match skip_ws t with
          | d :: t' =>
              if (d =? 93)%N then Some (JArr [], t')
              else match parse_elements f t with
                   | Some (items, r) => Some (JArr items, r)
                   | None => None
                   end
          | [] => None
          end
        else if (c =? 123)%N then
          match skip_ws t with
          | d :: t' =>
              if (d =? 125)%N then Some (JObj [], t')
              else match parse_members f t with
                   | Some (members, r) => Some (JObj (obj_of_members members), r)
                   | None => None
                   end
          | [] => None
          end
        else if (c =? 110)%N then parse_literal "null" JNull (c :: t)
        else if (c =? 116)%N then parse_literal "true" (JBool true) (c :: t)
        else if (c =? 102)%N then parse_literal "false" (JBool false) (c :: t)
        else
          match scan_number (c :: t) with
          | Some (literal, r) => Some (JNum literal, r)
          | None => None
          end
    end.
Proof. reflexivity. Qed.

Lemma parse_members_unfold f s :
  parse_members (S f) s
  = match skip_ws s with
    | q :: t =>
        if (q =? 34)%N then
          match parse_chars t with
          | Some (k, r) =>
              match skip_ws r with
              | c :: r1 =>
                  if (c =? 58)%N then
                    match parse_value f r1 with
                    | Some (v, r2) =>
                        match skip_ws r2 with
                        | c' :: r3 =>
                            if (c' =? 44)%N then
                              match parse_members f r3 with
                              | Some (members, r4) =>
                                  Some ((k, v) :: members, r4)
                              | None => None
                              end
                            else if (c' =? 125)%N then Some ([(k, v)], r3)
                            else None
                        | [] => None
                        end
                    | None => None
                    end
                  else None
              | [] => None
              end
          | None => None
          end
        else None
    | [] => None
    end.
Proof. reflexivity. Qed.

Lemma parse_value_consumes f :
  consumes parse_elements f -> consumes parse_members f ->
  consumes parse_value (S f).
Proof.
  intros IHe IHm s v r H. rewrite parse_value_step in H.
  destruct (skip_ws s) as [|c t] eqn:Es; [discriminate|].
  pose proof (skip_ws_length s) as Hs. rewrite Es in Hs. cbn [List.length] in Hs.
  assert (Hone : forall fuel', List.length s - List.length r <= fuel' ->
                 List.length r < List.length s ->
                 exists f', fuel' = S f'
                            /\ (List.length r < List.length t ->
                                List.length t - List.length r <= f')).
  { intros [|f'] H1 H2; [lia|]. exists f'. split; [reflexivity|lia]. }
  destruct (c =? 34)%N eqn:E34.
  { destruct (parse_chars t) as [[str r']|] eqn:Ec; [|discriminate].
    injection H as <- <-. pose proof (parse_chars_length _ _ _ Ec) as Hl.
    split; [lia|]. intros fuel' Hf.
    destruct (Hone fuel' Hf ltac:(lia)) as (f' & -> & _).
    now rewrite parse_value_step, Es, E34, Ec. }
  destruct (c =? 91)%N eqn:E91.
  { destruct (skip_ws t) as [|d t'] eqn:Et; [discriminate|].
    pose proof (skip_ws_length t) as Ht. rewrite Et in Ht.
    cbn [List.length] in Ht.
    destruct (d =? 93)%N eqn:E93.
    - injection H as <- <-. split; [lia|]. intros fuel' Hf.
      destruct (Hone fuel' Hf ltac:(lia)) as (f' & -> & _).
      now rewrite parse_value_step, Es, E34, E91, Et, E93.
    - destruct (parse_elements f t) as [[items r']|] eqn:Ee; [|discriminate].
      injection H as <- <-. destruct (IHe _ _ _ Ee) as [Hl Hmore].
      split; [lia|]. intros fuel' Hf.
      destruct (Hone fuel' Hf ltac:(lia)) as (f' & -> & Hf').
      rewrite parse_value_step, Es, E34, E91, Et, E93.
      now rewrite (Hmore f' (Hf' Hl)). }
  destruct (c =? 123)%N eqn:E123.
  { destruct (skip_ws t) as [|d t'] eqn:Et; [discriminate|].
    pose proof (skip_ws_length t) as Ht. rewrite Et in Ht.
    cbn [List.length] in Ht.
    destruct (d =? 125)%N eqn:E125.
    - injection H as <- <-. split; [lia|]. intros fuel' Hf.
      destruct (Hone fuel' Hf ltac:(lia)) as (f' & -> & _).
      now rewrite parse_value_step, Es, E34, E91, E123, Et, E125.
    - destruct (parse_members f t) as [[members r']|] eqn:Em; [|discriminate].
      injection H as <- <-. destruct (IHm _ _ _ Em) as [Hl Hmore].
      split; [lia|]. intros fuel' Hf.
      destruct (Hone fuel' Hf ltac:(lia)) as (f' & -> & Hf').
      rewrite parse_value_step, Es, E34, E91, E123, Et, E125.
      now rewrite (Hmore f' (Hf' Hl)). }
  assert (Hl : List.length r < List.length (c :: t)).
  { destruct (c =? 110)%N; [|destruct (c =? 116)%N; [|destruct (c =? 102)%N]];
      try (eapply parse_literal_length; [|exact H]; discriminate).
    destruct (scan_number (c :: t)) as [[literal r']|] eqn:En; [|discriminate].
    injection H as <- <-. exact (scan_number_length _ _ _ En). }
  cbn [List.length] in Hl. split; [lia|]. intros fuel' Hf.
  destruct (Hone fuel' Hf ltac:(lia)) as (f' & -> & _).
  now rewrite parse_value_step, Es, E34, E91, E123.
Qed.

Lemma parse_elements_consumes f :
  consumes parse_value f -> consumes parse_elements f ->
  consumes parse_elements (S f).
Proof.
  intros IHv IHe s items r H. rewrite parse_elements_step in H.
  destruct (parse_value f s) as [[v r1]|] eqn:Ev; [|discriminate].
  destruct (IHv _ _ _ Ev) as [Hl1 Hv].
  destruct (skip_ws r1) as [|c r'] eqn:Es; [discriminate|].
  pose proof (skip_ws_length r1) as Hs. rewrite Es in Hs.
  cbn [List.length] in Hs.
  destruct (c =? 44)%N eqn:E44.
  - destruct (parse_elements f r') as [[more r'']|] eqn:Ee; [|discriminate].
    injection H as <- <-. destruct (IHe _ _ _ Ee) as [Hl2 He].
    split; [lia|]. intros [|f'] Hf; [lia|].
    rewrite parse_elements_step, (Hv f') by lia.
    now rewrite Es, E44, (He f') by lia.
  - destruct (c =? 93)%N eqn:E93; [|discriminate].
    injection H as <- <-. split; [lia|]. intros [|f'] Hf; [lia|].
    rewrite parse_elements_step, (Hv f') by lia.
    now rewrite Es, E44, E93.
Qed.

Lemma parse_members_consumes f :
  consumes parse_value f -> consumes parse_members f ->
  consumes parse_members (S f).
Proof.
  intros IHv IHm s members r H. rewrite parse_members_unfold in H.
  destruct (skip_ws s) as [|q t] eqn:Es; [discriminate|].
  pose proof (skip_ws_length s) as Hs. rewrite Es in Hs.
  cbn [List.length] in Hs.
  destruct (q =? 34)%N eqn:E34; [|discriminate].
  destruct (parse_chars t) as [[k rk]|] eqn:Ec; [|discriminate].
  pose proof (parse_chars_length _ _ _ Ec) as Hk.
  destruct (skip_ws rk) as [|c r1] eqn:Ek; [discriminate|].
  pose proof (skip_ws_length rk) as Hsk. rewrite Ek in Hsk.
  cbn [List.length] in Hsk.
  destruct (c =? 58)%N eqn:E58; [|discriminate].
  destruct (parse_value f r1) as [[v r2]|] eqn:Ev; [|discriminate].
  destruct (IHv _ _ _ Ev) as [Hl1 Hv].
  destruct (skip_ws r2) as [|c' r3] eqn:E2; [discriminate|].
  pose proof (skip_ws_length r2) as Hs2. rewrite E2 in Hs2.
  cbn [List.length] in Hs2.
  destruct (c' =? 44)%N eqn:E44.
  - destruct (parse_members f r3) as [[more r4]|] eqn:Em; [|discriminate].
    injection H as <- <-. destruct (IHm _ _ _ Em) as [Hl2 Hm].
    split; [lia|]. intros [|f'] Hf; [lia|].
    rewrite parse_members_unfold, Es, E34, Ec, Ek, E58, (Hv f') by lia.
    now rewrite E2, E44, (Hm f') by lia.
  - destruct (c' =? 125)%N eqn:E125; [|discriminate].
    injection H as <- <-. split; [lia|]. intros [|f'] Hf; [lia|].
    rewrite parse_members_unfold, Es, E34, Ec, Ek, E58, (Hv f') by lia.
    now rewrite E2, E44, E125.
Qed.

Lemma parsers_consume f :
  consumes parse_value f /\ consumes parse_elements f
  /\ consumes parse_members f.
Proof.
  induction f as [|f (IHv & IHe & IHm)].
  - split; [|split]; intros s a r H; discriminate.
  - split; [now apply parse_value_consumes|].
    split; [now apply parse_elements_consumes|
            now apply parse_members_consumes].
Qed.

(** The fuel [JSON_parse] gives the parser never runs out: what any
    amount of fuel reads, [JSON_parse] reads. *)
Lemma JSON_parse_fuel fuel text v r :
  parse_value fuel text = Some (v, r) ->
  skip_ws r = [] ->
  JSON_parse text = Returned v.
Proof.
  intros Hp Hws.
  destruct (proj1 (parsers_consume fuel) _ _ _ Hp) as [_ Hmore].
  unfold JSON_parse. rewrite (Hmore (S (List.length text))) by lia.
  now rewrite Hws.
Qed.

(* ================================================================== *)
(** * Further properties of the hook *)

(** ** What the view shows after a response *)

(** X1. When the response to a pending call is a success, the selected
    model is the record just created, at the head of the history,
    whatever the history held before and whether or not the call is the
    latest one. *)
Theorem new_record_is_selected (st : state) (id : nat) (r : response)
  (clock : Clock) (m : mutation) (result : json) :
  nth_error (mutations st) id = Some m ->
  mutation_status m = Pending ->
  mutationFn_result (variables m) r = Returned result ->
  exists st',
    settle st id r clock = Returned st'
    /\ hd_error (history st') = Some (new_entry clock result (variables m))
    /\ selectedModel st'
       = Returned (Some (new_entry clock result (variables m))).
Proof.
  intros Hm Hs Hr.
  destruct (settle_success st id r clock m result Hm Hs Hr)
    as (st1 & _ & Hset & Hh & Hsel & _).
  eexists. split; [exact Hset|].
  unfold selectedModel. rewrite Hh, Hsel.
  change (firstn 20 (new_entry clock result (variables m) :: history st))
    with (new_entry clock result (variables m) :: firstn 19 (history st)).
  split; [reflexivity|].
  unfold selectedModel_of. cbn [find_selected].
  change (get (new_entry clock result (variables m)) (js "id"))
    with (@Returned (option json) (Some (JStr (entry_id clock)))).
  cbn [bind strict_eq]. now rewrite jstring_eqb_refl.
Qed.

Lemma new_record_is_selected_witness :
  exists st',
    settle (generateModel (started (browser None) [JNull; JNull]) (js "wing"))
      0 (Resolved (glb "a.glb")) (clock_uuid "u1") = Returned st'
    /\ selectedModel st'
       = Returned
           (Some (new_entry (clock_uuid "u1")
                    (JObj [(js "url", JStr (js "a.glb"));
                           (js "prompt", JStr (js "wing"))])
                    (js "wing"))).
Proof.
  destruct (new_record_is_selected
              (generateModel (started (browser None) [JNull; JNull]) (js "wing"))
              0 (Resolved (glb "a.glb")) (clock_uuid "u1")
              {| variables := js "wing"; mutation_status := Pending |}
              (JObj [(js "url", JStr (js "a.glb"));
                     (js "prompt", JStr (js "wing"))])
              eq_refl eq_refl eq_refl) as (st' & Hset & _ & Hsel).
  exists st'. split; [exact Hset|exact Hsel].
Defined.

(** ** Order of the history *)

Lemma firstn_app_firstn {A} n (a l : list A) :
  firstn n (a ++ firstn n l) = firstn n (a ++ l).
Proof.
  rewrite !firstn_app, firstn_firstn. f_equal. f_equal. lia.
Qed.

Lemma generate_all_order st calls :
  Forall (fun c => succeeds (fst (fst c)) (snd (fst c))) calls ->
  exists st',
    generate_all st calls = Returned st'
    /\ firstn 20 (history st')
       = firstn 20 (rev (map entry_of calls) ++ history st)
    /\ (calls <> [] -> List.length (history st') <= 20).
Proof.
  intros Hcalls. revert st.
  induction Hcalls as [|[[prompt data] clock] calls Hc Hrest IH]; intros st.
  - exists st. split; [reflexivity|]. split; [reflexivity|congruence].
  - destruct (generate_success st prompt data clock Hc)
      as (st1 & Hgen & Hh & _).
    destruct (IH st1) as (st' & Hall & Hh' & _).
    destruct (generate_all_capped st1 calls Hrest) as (st2 & Hall2 & Hcap).
    assert (st2 = st') by congruence. subst st2.
    exists st'. cbn [generate_all]. rewrite Hgen. cbn [bind].
    split; [exact Hall|]. split.
    + rewrite Hh', Hh, firstn_app_firstn. cbn [map rev entry_of].
      now rewrite <- app_assoc.
    + intros _. apply Hcap. rewrite Hh. apply firstn_cap.
Qed.

(** X2. After a sequence of one or more successful calls the history is
    the new records, newest first, followed by the old history, cut to
    20 elements. *)
Theorem newest_first (st : state) (calls : list (jstring * json * Clock)) :
  calls <> [] ->
  Forall (fun c => succeeds (fst (fst c)) (snd (fst c))) calls ->
  exists st',
    generate_all st calls = Returned st'
    /\ history st' = firstn 20 (rev (map entry_of calls) ++ history st).
Proof.
  intros Hne Hcalls.
  destruct (generate_all_order st calls Hcalls) as (st' & Hall & Hh & Hcap).
  exists st'. split; [exact Hall|].
  rewrite <- Hh. symmetry. apply firstn_all2. exact (Hcap Hne).
Qed.

Lemma newest_first_witness :
  [(js "wing", glb "w.glb", clock_uuid "u1");
   (js "fin", glb "f.glb", clock_uuid "u2")] <> []
  /\ Forall (fun c => succeeds (fst (fst c)) (snd (fst c)))
       [(js "wing", glb "w.glb", clock_uuid "u1");
        (js "fin", glb "f.glb", clock_uuid "u2")]
  /\ exists st',
       generate_all (started (browser None) [model_value (sample_model "m0")])
         [(js "wing", glb "w.glb", clock_uuid "u1");
          (js "fin", glb "f.glb", clock_uuid "u2")] = Returned st'
       /\ ids (history st')
          = [Some (JStr (js "u2")); Some (JStr (js "u1"));
             Some (JStr (js "m0"))].
Proof.
  assert (Hok : Forall (fun c => succeeds (fst (fst c)) (snd (fst c)))
                  [(js "wing", glb "w.glb", clock_uuid "u1");
                   (js "fin", glb "f.glb", clock_uuid "u2")]).
  { repeat constructor; discriminate. }
  split; [discriminate|]. split; [exact Hok|].
  destruct (newest_first
              (started (browser None) [model_value (sample_model "m0")])
              [(js "wing", glb "w.glb", clock_uuid "u1");
               (js "fin", glb "f.glb", clock_uuid "u2")]
              ltac:(discriminate) Hok) as (st' & Hall & Hh).
  exists st'. split; [exact Hall|]. rewrite Hh. reflexivity.
Defined.

(** ** The request state *)

(** X3. A call with a prompt that is not blank makes the hook busy and
    drops the error of the call before it; the history, the selection
    and the store are untouched until the response. *)
Theorem new_call_clears_error (st : state) (prompt : jstring) :
  trim prompt <> [] ->
  isGenerating (generateModel st prompt) = true
  /\ error (generateModel st prompt) = None
  /\ posted (generateModel st prompt) = posted st ++ [trim prompt]
  /\ history (generateModel st prompt) = history st
  /\ selectedId (generateModel st prompt) = selectedId st
  /\ window (generateModel st prompt) = window st.
Proof.
  intros Hp. rewrite (generateModel_posts _ _ Hp).
  unfold isGenerating, error, current_status.
  cbn [currentMutation record_call mutations]. rewrite nth_error_snoc.
  repeat split.
Qed.

Lemma new_call_clears_error_witness :
  trim (js "wing") <> []
  /\ error (generateModel (started (browser None) []) (js "  ")) = Some EmptyPrompt
  /\ error (generateModel (generateModel (started (browser None) []) (js "  "))
              (js "wing")) = None.
Proof.
  split; [discriminate|]. split; [reflexivity|].
  exact (proj1 (proj2 (new_call_clears_error
                         (generateModel (started (browser None) []) (js "  "))
                         (js "wing") ltac:(discriminate)))).
Defined.

(** X4. [resetError] while a call is pending does not cancel the call:
    the hook shows neither busy nor error from then on, also when the
    call fails later, but a later success is still put into the history
    and selected. *)
Theorem reset_does_not_cancel (st : state) (prompt : jstring) (r : response)
  (clock : Clock) :
  trim prompt <> [] ->
  isGenerating (resetError (generateModel st prompt)) = false
  /\ error (resetError (generateModel st prompt)) = None
  /\ exists st',
       settle (resetError (generateModel st prompt)) (next_call st) r clock
       = Returned st'
       /\ isGenerating st' = false
       /\ error st' = None
       /\ match mutationFn_result prompt r with
          | Returned result =>
              history st' = firstn 20 (new_entry clock result prompt :: history st)
              /\ selectedId st' = Some (entry_id clock)
          | Thrown _ =>
              history st' = history st /\ selectedId st' = selectedId st
          end.
Proof.
  intros Hp. rewrite (generateModel_posts _ _ Hp).
  set (m := {| variables := prompt; mutation_status := Pending |}).
  set (st1 := resetError (record_call st m [trim prompt])).
  split; [reflexivity|]. split; [reflexivity|].
  assert (Hm : nth_error (mutations st1) (next_call st) = Some m)
    by apply nth_error_snoc.
  destruct (settle_pending st1 (next_call st) r clock m Hm eq_refl)
    as (st' & s & Hset & Hms & Hcur & Hres).
  exists st'. split; [exact Hset|].
  assert (Hst : current_status st' = None)
    by (unfold current_status; now rewrite Hcur).
  unfold isGenerating, error. rewrite Hst. split; [reflexivity|].
  split; [reflexivity|].
  change (variables m) with prompt in Hres.
  destruct (mutationFn_result prompt r); tauto.
Qed.

Lemma reset_does_not_cancel_witness :
  trim (js "wing") <> []
  /\ exists st',
       settle (resetError (generateModel (started (browser None) []) (js "wing")))
         0 (Rejected (AxiosError "Network Error")) (clock_uuid "u1")
       = Returned st'
       /\ error st' = None.
Proof.
  split; [discriminate|].
  destruct (reset_does_not_cancel (started (browser None) []) (js "wing")
              (Rejected (AxiosError "Network Error")) (clock_uuid "u1")
              ltac:(discriminate)) as (_ & _ & st' & Hset & _ & He & _).
  exists st'. split; [exact Hset|exact He].
Defined.

(** ** The store *)

Lemma persistHistory_works w h :
  window_defined w = true ->
  setItem_works w = true ->
  persistHistory w h
  = Returned ({| window_defined := window_defined w;
                 getItem_works := getItem_works w;
                 setItem_works := setItem_works w;
                 stored := Some (JSON_stringify (JArr h)) |}, []).
Proof.
  intros Hw Hs. unfold persistHistory, setItem. now rewrite Hw, Hs.
Qed.

Lemma persistHistory_refused w h :
  window_defined w = true ->
  setItem_works w = false ->
  persistHistory w h = Returned (w, [PersistWarning StorageError]).
Proof.
  intros Hw Hs. unfold persistHistory, setItem. now rewrite Hw, Hs.
Qed.

Lemma persistHistory_no_window w h :
  window_defined w = false -> persistHistory w h = Returned (w, []).
Proof.
  intros Hw. unfold persistHistory. now rewrite Hw.
Qed.

Lemma with_status_variables ms id s :
  map variables (with_status ms id s) = map variables ms.
Proof.
  unfold with_status. destruct (nth_error ms id) as [m|] eqn:Hm; [|reflexivity].
  rewrite map_app. cbn [map variables].
  rewrite <- (firstn_skipn id ms) at 3. rewrite map_app. f_equal.
  assert (Hsk : skipn id ms = m :: skipn (S id) ms).
  { clear s. revert id Hm. induction ms as [|x ms IH]; intros [|id] Hm;
      simpl in Hm; try discriminate.
    - now injection Hm as ->.
    - apply IH in Hm. exact Hm. }
  now rewrite Hsk.
Qed.

(** What one step does to the store, the console, the history and the
    prompts of the calls. *)
Lemma step_effect st e :
  exists st',
    step st e = Returned st'
    /\ map variables (mutations st')
       = map variables (mutations st)
         ++ match e with GenerateModel prompt => [prompt] | _ => [] end
    /\ ((window st' = window st /\ history st' = history st
         /\ console st' = console st)
        \/ exists ws,
             persistHistory (window st) (history st') = Returned (window st', ws)
             /\ console st' = console st ++ ws
             /\ (history st' = []
                 \/ exists id r clock data m,
                      e = Settle id r clock
                      /\ r = Resolved data
                      /\ nth_error (mutations st) id = Some m
                      /\ history st'
                         = firstn 20
                             (new_entry clock
                                (JObj (obj_set (js "prompt")
                                         (JStr (trim (variables m)))
                                         (own_props data)))
                                (variables m) :: history st))).
Proof.
  destruct e as [prompt|id r clock|id| |]; cbn [step].
  - eexists. split; [reflexivity|].
    unfold generateModel.
    destruct (mutationFn_request prompt); cbn [mutations record_call];
      rewrite map_app; (split; [reflexivity|left; repeat split]).
  - unfold settle.
    destruct (nth_error (mutations st) id) as [m|] eqn:Hm;
      [|eexists; split; [reflexivity|];
        split; [now rewrite app_nil_r|left; repeat split]].
    destruct (mutation_status m) eqn:Hs;
      try (eexists; split; [reflexivity|];
           split; [now rewrite app_nil_r|left; repeat split]).
    destruct r as [data|err]; cbn [mutationFn_result].
    + destruct (truthy (optional_get data (js "url"))); cbn [negb].
      * unfold onSuccess.
        set (next := firstn 20 (_ :: _)).
        destruct (persistHistory_returns (window st) next) as (w' & ws & Hp).
        rewrite Hp. cbn [bind fst snd]. eexists. split; [reflexivity|].
        cbn [set_status mutations]. rewrite with_status_variables, app_nil_r.
        split; [reflexivity|]. right. exists ws.
        unfold history at 1. cbn [set_status queryData window console].
        split; [exact Hp|]. split; [reflexivity|]. right.
        exists id, (Resolved data), clock, data, m. repeat split. exact Hm.
      * eexists. split; [reflexivity|].
        cbn [set_status mutations]. rewrite with_status_variables, app_nil_r.
        split; [reflexivity|left; repeat split].
    + eexists. split; [reflexivity|].
      cbn [set_status mutations]. rewrite with_status_variables, app_nil_r.
      split; [reflexivity|left; repeat split].
  - eexists. split; [reflexivity|].
    split; [now rewrite app_nil_r|left; repeat split].
  - unfold clearHistory.
    destruct (persistHistory_returns (window st) []) as (w' & ws & Hp).
    rewrite Hp. cbn [bind fst snd]. eexists. split; [reflexivity|].
    split; [cbn; now rewrite app_nil_r|]. right. exists ws.
    split; [exact Hp|]. split; [reflexivity|now left].
  - eexists. split; [reflexivity|].
    split; [now rewrite app_nil_r|left; repeat split].
Qed.

Lemma run_store st0 events :
  forall st,
    window_defined (window st) = true ->
    setItem_works (window st) = true ->
    (window st = window st0 /\ history st = history st0) \/ in_sync st ->
    exists st',
      run st events = Returned st'
      /\ window_defined (window st') = true
      /\ setItem_works (window st') = true
      /\ ((window st' = window st0 /\ history st' = history st0)
          \/ in_sync st').
Proof.
  induction events as [|e events IH]; intros st Hw Hs Hinv.
  - exists st. repeat split; assumption.
  - destruct (step_effect st e) as (st1 & Hstep & _ & Heff).
    assert (H1 : window_defined (window st1) = true
                 /\ setItem_works (window st1) = true
                 /\ ((window st1 = window st0 /\ history st1 = history st0)
                     \/ in_sync st1)).
    { destruct Heff as [(Hwin & Hh & _)|(ws & Hp & _)].
      - rewrite Hwin. split; [exact Hw|]. split; [exact Hs|].
        destruct Hinv as [[H1 H2]|Hsync]; [left; split; congruence|].
        right. unfold in_sync in *. now rewrite Hwin, Hh.
      - rewrite (persistHistory_works _ _ Hw Hs) in Hp.
        injection Hp as Hwin _. rewrite <- Hwin.
        split; [exact Hw|]. split; [exact Hs|]. right.
        unfold in_sync. now rewrite <- Hwin. }
    destruct H1 as (Hw1 & Hs1 & Hinv1).
    destruct (IH st1 Hw1 Hs1 Hinv1) as (st' & Hrun & Hres).
    exists st'. cbn [run]. rewrite Hstep. split; [exact Hrun|exact Hres].
Qed.

Lemma step_keeps_store st e :
  rewrites_history e = false ->
  exists st',
    step st e = Returned st'
    /\ window st' = window st /\ history st' = history st.
Proof.
  intros He. destruct e as [prompt|id r clock|id| |]; cbn [step];
    try discriminate.
  - eexists. split; [reflexivity|].
    unfold generateModel. destruct (mutationFn_request prompt); now split.
  - unfold settle.
    destruct (nth_error (mutations st) id) as [m|];
      [|eexists; repeat split; reflexivity].
    destruct (mutation_status m); try (eexists; repeat split; reflexivity).
    destruct r as [data|err]; cbn [mutationFn_result].
    + simpl in He. rewrite He. cbn [negb]. eexists. repeat split; reflexivity.
    + eexists. repeat split; reflexivity.
  - eexists. repeat split; reflexivity.
  - eexists. repeat split; reflexivity.
Qed.

Lemma run_keeps_store st events :
  existsb rewrites_history events = false ->
  exists st',
    run st events = Returned st'
    /\ window st' = window st /\ history st' = history st.
Proof.
  revert st. induction events as [|e events IH]; intros st Hev.
  - now exists st.
  - cbn [existsb] in Hev. apply orb_false_iff in Hev as [He Hev].
    destruct (step_keeps_store st e He) as (st1 & Hstep & Hw1 & Hh1).
    destruct (IH st1 Hev) as (st' & Hrun & Hw & Hh).
    exists st'. cbn [run]. rewrite Hstep. split; [exact Hrun|].
    split; congruence.
Qed.

(** X5. With a store that takes writes, a run that holds no clear and no
    response with a usable url (only calls, selections, resets and
    failed responses) leaves the store and the history exactly as they
    were: those operations never write. After any run at all, either
    the store and the history are as they were, or the store holds
    exactly the text of the current history: every change of the
    history is written through. *)
Theorem store_follows_history (st : state) (events : list event) :
  window_defined (window st) = true ->
  setItem_works (window st) = true ->
  exists st',
    run st events = Returned st'
    /\ (existsb rewrites_history events = false ->
        window st' = window st /\ history st' = history st)
    /\ ((window st' = window st /\ history st' = history st)
        \/ in_sync st').
Proof.
  intros Hw Hs.
  destruct (run_store st events st Hw Hs (or_introl (conj eq_refl eq_refl)))
    as (st' & Hrun & _ & _ & Hres).
  exists st'. split; [exact Hrun|]. split; [|exact Hres].
  intros Hev. destruct (run_keeps_store st events Hev) as (st2 & Hrun2 & H2).
  assert (st2 = st') by congruence. now subst st2.
Qed.

Lemma store_follows_history_witness :
  exists st1 st2,
    run (started (browser None) [])
      [GenerateModel (js "wing");
       Settle 0 (Resolved (glb "w.glb")) (clock_uuid "u1")] = Returned st1
    /\ in_sync st1
    /\ run st1 [SelectModel (js "zz"); ResetError; GenerateModel (js "fin");
                Settle 1 (Rejected (AxiosError "Network Error"))
                  (clock_uuid "u2")] = Returned st2
    /\ window st2 = window st1.
Proof.
  destruct (store_follows_history (started (browser None) [])
              [GenerateModel (js "wing");
               Settle 0 (Resolved (glb "w.glb")) (clock_uuid "u1")]
              eq_refl eq_refl) as (st1 & Hrun1 & _ & Hres).
  assert (Hst1 : window_defined (window st1) = true
                 /\ setItem_works (window st1) = true).
  { vm_compute in Hrun1. injection Hrun1 as <-. split; reflexivity. }
  destruct (store_follows_history st1
              [SelectModel (js "zz"); ResetError; GenerateModel (js "fin");
               Settle 1 (Rejected (AxiosError "Network Error"))
                 (clock_uuid "u2")] (proj1 Hst1) (proj2 Hst1))
    as (st2 & Hrun2 & Hkeep & _).
  exists st1, st2. split; [exact Hrun1|]. split.
  - destruct Hres as [[Hwin _]|Hsync]; [|exact Hsync].
    exfalso. vm_compute in Hrun1. injection Hrun1 as <-. discriminate Hwin.
  - split; [exact Hrun2|]. exact (proj1 (Hkeep eq_refl)).
Defined.

(** X6. When the store refuses the write, a successful call still puts
    its record into the history and selects it; the store keeps what it
    had and one warning is logged. *)
Theorem refused_write_keeps_memory (st : state) (prompt : jstring)
  (data : json) (clock : Clock) :
  window_defined (window st) = true ->
  setItem_works (window st) = false ->
  succeeds prompt data ->
  exists st',
    generate st prompt (Resolved data) clock = Returned st'
    /\ history st' = firstn 20 (entry_of (prompt, data, clock) :: history st)
    /\ selectedId st' = Some (entry_id clock)
    /\ error st' = None
    /\ window st' = window st
    /\ console st' = console st ++ [PersistWarning StorageError].
Proof.
  intros Hw Hs Hok.
  destruct (generate_success st prompt data clock Hok)
    as (st' & Hgen & Hh & Hsel & He & _).
  exists st'. split; [exact Hgen|]. split; [exact Hh|].
  split; [exact Hsel|]. split; [exact He|].
  destruct Hok as [Hp Hu].
  unfold generate in Hgen. rewrite (generateModel_posts _ _ Hp) in Hgen.
  unfold settle in Hgen.
  cbn [mutations record_call] in Hgen. unfold next_call in Hgen.
  rewrite nth_error_snoc in Hgen. cbn [mutation_status variables] in Hgen.
  rewrite (mutationFn_result_success _ _ Hu) in Hgen.
  unfold onSuccess in Hgen. cbn [window record_call] in Hgen.
  rewrite (persistHistory_refused _ _ Hw Hs) in Hgen.
  cbn [bind fst snd] in Hgen. injection Hgen as <-. split; reflexivity.
Qed.

Lemma refused_write_keeps_memory_witness :
  succeeds (js "wing") (glb "w.glb")
  /\ exists st',
       generate
         (started {| window_defined := true; getItem_works := true;
                     setItem_works := false; stored := Some (js "[]") |} [])
         (js "wing") (Resolved (glb "w.glb")) (clock_uuid "u1") = Returned st'
       /\ List.length (history st') = 1
       /\ stored (window st') = Some (js "[]").
Proof.
  assert (Hok : succeeds (js "wing") (glb "w.glb"))
    by (split; [discriminate|reflexivity]).
  split; [exact Hok|].
  destruct (refused_write_keeps_memory
              (started {| window_defined := true; getItem_works := true;
                          setItem_works := false; stored := Some (js "[]") |} [])
              (js "wing") (glb "w.glb") (clock_uuid "u1") eq_refl eq_refl Hok)
    as (st' & Hgen & Hh & _ & _ & Hwin & _).
  exists st'. split; [exact Hgen|]. rewrite Hh, Hwin. split; reflexivity.
Defined.

(** X7. When the store refuses the write, [clearHistory] empties the
    history in memory only: the store keeps the old value, so the next
    first render reads the old history again. *)
Theorem refused_clear_comes_back (st : state) :
  window_defined (window st) = true ->
  setItem_works (window st) = false ->
  exists st',
    clearHistory st = Returned st'
    /\ history st' = []
    /\ console st' = console st ++ [PersistWarning StorageError]
    /\ mount (window st') = mount (window st).
Proof.
  intros Hw Hs. unfold clearHistory.
  rewrite (persistHistory_refused _ _ Hw Hs). cbn [bind fst snd].
  eexists. split; [reflexivity|]. repeat split.
Qed.

Lemma refused_clear_comes_back_witness :
  exists st' st'',
    clearHistory
      (started {| window_defined := true; getItem_works := true;
                  setItem_works := false; stored := Some (js "[7]") |}
               [JNum (js "7")]) = Returned st'
    /\ history st' = []
    /\ mount (window st') = Returned st''
    /\ history st'' = [JNum (js "7")].
Proof.
  destruct (refused_clear_comes_back
              (started {| window_defined := true; getItem_works := true;
                          setItem_works := false; stored := Some (js "[7]") |}
                       [JNum (js "7")]) eq_refl eq_refl)
    as (st' & Hc & Hh & _ & Hm).
  exists st'. eexists. split; [exact Hc|]. split; [exact Hh|].
  rewrite Hm. split; reflexivity.
Defined.

Lemma run_no_window events :
  forall st,
    window_defined (window st) = false ->
    exists st',
      run st events = Returned st'
      /\ window st' = window st /\ console st' = console st.
Proof.
  induction events as [|e events IH]; intros st Hw.
  - exists st. repeat split.
  - destruct (step_effect st e) as (st1 & Hstep & _ & Heff).
    assert (H1 : window st1 = window st /\ console st1 = console st).
    { destruct Heff as [(Hwin & _ & Hc)|(ws & Hp & Hc & _)]; [now split|].
      rewrite (persistHistory_no_window _ _ Hw) in Hp.
      injection Hp as Hwin <-. rewrite app_nil_r in Hc. now split. }
    destruct H1 as [Hwin Hc].
    destruct (IH st1) as (st' & Hrun & Hwin' & Hc'); [now rewrite Hwin|].
    exists st'. cbn [run]. rewrite Hstep. split; [exact Hrun|].
    split; congruence.
Qed.

(** X8. Where there is no [window] (rendering on a server) the hook
    starts with the empty history and no run reads or writes the store
    or logs a warning; the history lives in memory only. *)
Theorem no_window_no_store (w : Window) (events : list event) :
  window_defined w = false ->
  exists st0 st',
    mount w = Returned st0
    /\ history st0 = []
    /\ run st0 events = Returned st'
    /\ window st' = w
    /\ console st' = [].
Proof.
  intros Hw. unfold mount, readHistory. rewrite Hw. cbn [negb bind fst snd].
  eexists. destruct (run_no_window events
                       {| window := w; queryData := Some []; selectedId := None;
                          mutations := []; currentMutation := None;
                          posted := []; console := [] |} Hw)
    as (st' & Hrun & Hwin & Hc).
  exists st'. split; [reflexivity|]. split; [reflexivity|].
  split; [exact Hrun|]. split; [exact Hwin|exact Hc].
Qed.

Lemma no_window_no_store_witness :
  exists st0 st',
    mount {| window_defined := false; getItem_works := true;
             setItem_works := true; stored := Some (js "[1]") |} = Returned st0
    /\ history st0 = []
    /\ run st0 [GenerateModel (js "wing");
                Settle 0 (Resolved (glb "w.glb")) (clock_uuid "u1")]
       = Returned st'
    /\ stored (window st') = Some (js "[1]").
Proof.
  destruct (no_window_no_store
              {| window_defined := false; getItem_works := true;
                 setItem_works := true; stored := Some (js "[1]") |}
              [GenerateModel (js "wing");
               Settle 0 (Resolved (glb "w.glb")) (clock_uuid "u1")] eq_refl)
    as (st0 & st' & Hm & Hh & Hrun & Hwin & _).
  exists st0, st'. split; [exact Hm|]. split; [exact Hh|].
  split; [exact Hrun|]. now rewrite Hwin.
Defined.

(** X9. A stored value that is JSON but not an array is dropped without
    a warning, and stays in the store; a stored value that is not JSON
    is dropped with a warning. *)
Theorem stored_non_array_dropped_silently (w : Window) (text : jstring) :
  window_defined w = true ->
  getItem_works w = true ->
  stored w = Some text ->
  text <> [] ->
  (forall items, JSON_parse text <> Returned (JArr items)) ->
  exists st,
    mount w = Returned st
    /\ history st = []
    /\ window st = w
    /\ console st = match JSON_parse text with
                    | Returned _ => []
                    | Thrown e => [ParseWarning e]
                    end.
Proof.
  intros Hw Hg Hs Hne Hna. unfold mount.
  rewrite (readHistory_stored w Hw Hg), Hs.
  destruct text as [|c text]; [contradiction|].
  destruct (JSON_parse (c :: text)) as [v|e].
  - destruct v as [| | | |items|]; cbn [bind fst snd];
      try (eexists; repeat split; reflexivity).
    now destruct (Hna items).
  - cbn [bind fst snd]. eexists. repeat split.
Qed.

Lemma stored_non_array_dropped_silently_witness :
  exists st,
    mount (browser (Some (js "{}"))) = Returned st
    /\ history st = [] /\ console st = [].
Proof.
  destruct (stored_non_array_dropped_silently (browser (Some (js "{}")))
              (js "{}") eq_refl eq_refl eq_refl)
    as (st & Hm & Hh & _ & Hc); [discriminate|intros items; discriminate|].
  exists st. split; [exact Hm|]. split; [exact Hh|exact Hc].
Defined.

(** ** Reloading *)

Lemma lookup_well_formed props k x :
  well_formed (JObj props) = true ->
  lookup k props = Some x ->
  well_formed x = true.
Proof.
  cbn [well_formed]. intros Hwf. apply andb_true_iff in Hwf as [Hwf _].
  induction props as [|[k' v] props IH]; cbn [lookup]; [discriminate|].
  cbn [forallb] in Hwf. apply andb_true_iff in Hwf as [Hv Hrest].
  apply andb_true_iff in Hv as [_ Hv].
  destruct (jstring_eqb k k'); [now intros [= <-]|now apply IH].
Qed.

Lemma optional_get_well_formed data k x :
  well_formed data = true ->
  optional_get data k = Some x ->
  well_formed x = true.
Proof.
  destruct data; cbn [optional_get]; try discriminate.
  apply lookup_well_formed.
Qed.

Lemma result_get data v k :
  jstring_eqb k (js "prompt") = false ->
  optional_get (JObj (obj_set (js "prompt") v (own_props data))) k
  = optional_get data k.
Proof.
  intros Hk. cbn [optional_get].
  rewrite (lookup_obj_set_other _ _ _ _ Hk). now destruct data.
Qed.

Lemma new_entry_well_formed clock data t prompt :
  well_formed data = true ->
  forallb code_unit prompt = true ->
  forallb code_unit (entry_id clock) = true ->
  forallb code_unit (toISOString clock) = true ->
  well_formed
    (new_entry clock (JObj (obj_set (js "prompt") t (own_props data))) prompt)
  = true.
Proof.
  intros Hd Hp Hi Hc. unfold new_entry.
  rewrite !result_get by reflexivity.
  pose proof (optional_get_well_formed data (js "url")) as Hu.
  pose proof (optional_get_well_formed data (js "thumbnailUrl")) as Ht.
  pose proof (optional_get_well_formed data (js "metadata")) as Hm.
  destruct (optional_get data (js "url")) as [u|];
    destruct (optional_get data (js "thumbnailUrl")) as [th|];
    destruct (optional_get data (js "metadata")) as [md|];
    cbn [object_literal well_formed forallb map fst];
    rewrite ?Hp, ?Hi, ?Hc, ?(Hu _ Hd eq_refl), ?(Ht _ Hd eq_refl),
      ?(Hm _ Hd eq_refl); reflexivity.
Qed.

Lemma forallb_firstn {A} (f : A -> bool) n l :
  forallb f l = true -> forallb f (firstn n l) = true.
Proof.
  revert n. induction l as [|x l IH]; intros [|n] H; simpl in *; auto.
  apply andb_true_iff in H as [Hx Hl]. now rewrite Hx, IH.
Qed.

Lemma forallb_variables (ms : list mutation) :
  forallb (fun m => forallb code_unit (variables m)) ms
  = forallb (forallb code_unit) (map variables ms).
Proof.
  induction ms as [|m ms IH]; simpl; [reflexivity|now rewrite IH].
Qed.

Lemma step_reloadable st e :
  reloadable st ->
  clean_event e = true ->
  exists st', step st e = Returned st' /\ reloadable st'.
Proof.
  intros (Hw & Hg & Hs & Hwf & Hvars & ws0 & Hread) Hclean.
  destruct (step_effect st e) as (st' & Hstep & Hmv & Heff).
  exists st'. split; [exact Hstep|].
  assert (Hvars' : forallb (fun m => forallb code_unit (variables m))
                     (mutations st') = true).
  { rewrite forallb_variables, Hmv, forallb_app, <- forallb_variables, Hvars.
    destruct e; try reflexivity. cbn [clean_event forallb] in *.
    now rewrite Hclean. }
  destruct Heff as [(Hwin & Hh & _)|(ws & Hp & _ & Hnew)].
  - unfold reloadable. rewrite Hwin, Hh. repeat split; try assumption.
    now exists ws0.
  - assert (Hwf' : forallb well_formed (history st') = true).
    { destruct Hnew as [->|(id & r & clock & data & m & -> & -> & Hm & ->)];
        [reflexivity|].
      apply forallb_firstn. cbn [forallb]. rewrite Hwf, andb_true_r.
      cbn [clean_event] in Hclean.
      apply andb_true_iff in Hclean as [Hclean Hiso].
      apply andb_true_iff in Hclean as [Hdata Hid].
      apply new_entry_well_formed; try assumption.
      apply nth_error_In in Hm.
      exact (proj1 (forallb_forall _ _) Hvars m Hm). }
    destruct (readHistory_persistHistory (window st) (history st') Hw Hg Hs Hwf')
      as (w' & Hp' & _ & Hread').
    rewrite Hp in Hp'. injection Hp' as <- _.
    rewrite (persistHistory_works _ _ Hw Hs) in Hp. injection Hp as Hwin _.
    unfold reloadable. rewrite <- Hwin at 1 2 3. cbn [window_defined
      getItem_works setItem_works]. repeat split; try assumption.
    now exists [].
Qed.

Lemma run_reloadable events :
  forall st,
    reloadable st ->
    forallb clean_event events = true ->
    exists st', run st events = Returned st' /\ reloadable st'.
Proof.
  induction events as [|e events IH]; intros st Hst Hclean.
  - now exists st.
  - cbn [forallb] in Hclean. apply andb_true_iff in Hclean as [He Hrest].
    destruct (step_reloadable st e Hst He) as (st1 & Hstep & Hst1).
    destruct (IH st1 Hst1 Hrest) as (st' & Hrun & Hst').
    exists st'. cbn [run]. rewrite Hstep. split; [exact Hrun|exact Hst'].
Qed.

(** From a state whose store reads back as its history, after any run
    whose prompts and responses are strings and JSON data, a new first
    render reads back exactly the history at the end of the run. *)
Theorem reload_restores_history (st : state) (events : list event) :
  reloadable st ->
  forallb clean_event events = true ->
  exists st' st'',
    run st events = Returned st'
    /\ mount (window st') = Returned st''
    /\ history st'' = history st'.
Proof.
  intros Hst Hclean.
  destruct (run_reloadable events st Hst Hclean)
    as (st' & Hrun & _ & _ & _ & _ & _ & ws & Hread).
  exists st'. unfold mount. rewrite Hread. cbn [bind fst snd].
  eexists. split; [exact Hrun|]. split; reflexivity.
Qed.

Lemma reload_restores_history_witness :
  reloadable (started (browser (Some (js "[]"))) [])
  /\ exists st' st'',
       run (started (browser (Some (js "[]"))) [])
         [GenerateModel (js " wing ");
          Settle 0 (Resolved (model_value rich_model)) (clock_uuid "u1");
          GenerateModel (js "fin");
          Settle 1 (Resolved (glb "f.glb")) (clock_ms 1762041600000)]
       = Returned st'
       /\ mount (window st') = Returned st''
       /\ history st'' = history st'
       /\ List.length (history st') = 2.
Proof.
  assert (Hst : reloadable (started (browser (Some (js "[]"))) [])).
  { repeat split. exists []. reflexivity. }
  split; [exact Hst|].
  destruct (reload_restores_history (started (browser (Some (js "[]"))) [])
              [GenerateModel (js " wing ");
               Settle 0 (Resolved (model_value rich_model)) (clock_uuid "u1");
               GenerateModel (js "fin");
               Settle 1 (Resolved (glb "f.glb")) (clock_ms 1762041600000)]
              Hst ltac:(vm_compute; reflexivity))
    as (st' & st'' & Hrun & Hm & Hh).
  exists st', st''. split; [exact Hrun|]. split; [exact Hm|].
  split; [exact Hh|].
  vm_compute in Hrun. injection Hrun as <-. reflexivity.
Defined.

(** ** What is posted *)

Lemma trim_start_split s :
  exists pre, s = pre ++ trim_start s /\ forallb is_trim_space pre = true.
Proof.
  induction s as [|c s (pre & Hs & Hpre)]; [now exists []|].
  cbn [trim_start]. destruct (is_trim_space c) eqn:Hc.
  - exists (c :: pre). cbn [app forallb]. rewrite Hc, Hpre.
    split; [now rewrite <- Hs|reflexivity].
  - now exists [].
Qed.

Lemma trim_start_head s c t :
  trim_start s = c :: t -> is_trim_space c = false.
Proof.
  induction s as [|x s IH]; cbn [trim_start]; [discriminate|].
  destruct (is_trim_space x) eqn:Hx; [exact IH|].
  now intros [= <- _].
Qed.

Lemma last_rev_head {A} (b : list A) (x d : A) :
  last (rev (x :: b)) d = x.
Proof. cbn [rev]. apply last_last. Qed.

(** [trim] gives the empty string or a string with no white space at
    either end. *)
Lemma trim_tidy s : trim s = [] \/ tidy (trim s) = true.
Proof.
  unfold trim. set (a := trim_start s).
  destruct (trim_start (rev a)) as [|x b] eqn:Eb; [now left|]. right.
  destruct (trim_start_split (rev a)) as (pre & Ha & _). rewrite Eb in Ha.
  assert (Ha' : a = rev (x :: b) ++ rev pre)
    by (rewrite <- rev_app_distr, <- Ha; symmetry; apply rev_involutive).
  destruct (rev (x :: b)) as [|c t] eqn:Er.
  - apply (f_equal (@List.length N)) in Er. rewrite length_rev in Er.
    discriminate.
  - unfold tidy. apply andb_true_iff. split; apply negb_true_iff.
    + apply (trim_start_head s c (t ++ rev pre)). exact Ha'.
    + rewrite <- Er, last_rev_head. exact (trim_start_head _ _ _ Eb).
Qed.

Lemma posts_tidy events : Forall (fun t => tidy t = true) (posts_of events).
Proof.
  induction events as [|e events IH]; [constructor|].
  unfold posts_of. cbn [flat_map]. apply Forall_app. split; [|exact IH].
  destruct e as [prompt| | | |]; try constructor.
  destruct (trim_tidy prompt) as [H|H].
  - rewrite H. constructor.
  - destruct (trim prompt); constructor; [exact H|constructor].
Qed.

(** X11. Along any run, the texts posted to the service are exactly the
    trimmed prompts of the calls whose prompt is not blank, one post per
    call and in call order: a response, a selection, a clear or a reset
    never posts, and nothing is posted twice. Every posted text is
    non-empty and has no white space at either end. *)
Theorem posts_are_trimmed_prompts (st : state) (events : list event) :
  exists st',
    run st events = Returned st'
    /\ posted st' = posted st ++ posts_of events
    /\ Forall (fun t => tidy t = true) (posts_of events).
Proof.
  assert (H : forall events st,
             exists st', run st events = Returned st'
                         /\ posted st' = posted st ++ posts_of events).
  { clear. induction events as [|e events IH]; intros st.
    - exists st. split; [reflexivity|]. now rewrite app_nil_r.
    - assert (Hstep : exists st1,
                 step st e = Returned st1
                 /\ posted st1 = posted st ++ posts_of [e]).
      { destruct e as [prompt|id r clock|id| |]; cbn [step].
        - eexists. split; [reflexivity|].
          unfold generateModel, mutationFn_request, posts_of.
          cbn [flat_map]. rewrite app_nil_r.
          destruct (trim prompt); reflexivity.
        - destruct (step_history st (Settle id r clock)) as (st1 & Hs & _).
          exists st1. split; [exact Hs|]. cbn [step] in Hs.
          unfold settle in Hs.
          destruct (nth_error (mutations st) id) as [m|];
            [|injection Hs as <-; cbn; now rewrite app_nil_r].
          destruct (mutation_status m);
            try (injection Hs as <-; cbn; now rewrite app_nil_r).
          destruct (mutationFn_result (variables m) r) as [result|err];
            [|injection Hs as <-; cbn; now rewrite app_nil_r].
          destruct (onSuccess_returns st clock result (variables m))
            as (st2 & Hon & _ & _ & _ & _ & Hpost).
          rewrite Hon in Hs. cbn [bind] in Hs. injection Hs as <-.
          cbn. now rewrite app_nil_r.
        - eexists. split; [reflexivity|]. cbn. now rewrite app_nil_r.
        - unfold clearHistory.
          destruct (persistHistory_returns (window st) []) as (w' & ws & Hp).
          rewrite Hp. cbn [bind]. eexists. split; [reflexivity|].
          cbn. now rewrite app_nil_r.
        - eexists. split; [reflexivity|]. cbn. now rewrite app_nil_r. }
      destruct Hstep as (st1 & Hstep & Hp1).
      destruct (IH st1) as (st' & Hrun & Hp').
      exists st'. cbn [run]. rewrite Hstep. split; [exact Hrun|].
      rewrite Hp', Hp1, <- app_assoc. f_equal.
      unfold posts_of. cbn [flat_map]. now rewrite app_nil_r. }
  destruct (H events st) as (st' & Hrun & Hp).
  exists st'. split; [exact Hrun|]. split; [exact Hp|apply posts_tidy].
Qed.

(* ================================================================== *)
(** * Properties of the prompt form and the page *)

Lemma act_single_flight p a :
  (Page.loading p = true /\ List.length (Page.in_flight p) = 1)
  \/ (Page.loading p = false /\ Page.in_flight p = []) ->
  (Page.loading (Page.act p a) = true
   /\ List.length (Page.in_flight (Page.act p a)) = 1)
  \/ (Page.loading (Page.act p a) = false
      /\ Page.in_flight (Page.act p a) = []).
Proof.
  intros H. destruct a as [value| |i r]; cbn [Page.act].
  - exact H.
  - unfold Page.click. destruct H as [[Hl Hf]|[Hl Hf]]; rewrite Hl.
    + left. now split.
    + unfold Page.handleSubmit. destruct (trim (Page.text p)).
      * right. now split.
      * left. cbn. rewrite Hf. now split.
  - unfold Page.respond. destruct H as [[Hl Hf]|[Hl Hf]].
    + destruct (Page.in_flight p) as [|t [|t' l]] eqn:E; try discriminate.
      destruct i as [|i]; cbn [nth_error].
      * right. cbn. now split.
      * destruct i; cbn; left; rewrite E; now split.
    + rewrite Hf. destruct i; cbn; right; now split.
Qed.

(** X12. The prompt form never has two requests in flight: along any
    sequence of edits, clicks and responses from the start, at most one
    post is unanswered, and the form is loading (its button disabled)
    exactly while one is. *)
Theorem form_single_flight (actions : list Page.action) :
  List.length (Page.in_flight (Page.play Page.start actions)) <= 1
  /\ (Page.loading (Page.play Page.start actions) = true
      <-> Page.in_flight (Page.play Page.start actions) <> []).
Proof.
  assert (H : forall actions p,
             (Page.loading p = true /\ List.length (Page.in_flight p) = 1)
             \/ (Page.loading p = false /\ Page.in_flight p = []) ->
             (Page.loading (Page.play p actions) = true
              /\ List.length (Page.in_flight (Page.play p actions)) = 1)
             \/ (Page.loading (Page.play p actions) = false
                 /\ Page.in_flight (Page.play p actions) = [])).
  { clear. induction actions as [|a actions IH]; intros p Hp; [exact Hp|].
    cbn [Page.play fold_left]. apply IH. now apply act_single_flight. }
  destruct (H actions Page.start (or_intror (conj eq_refl eq_refl)))
    as [[Hl Hf]|[Hl Hf]]; rewrite Hl.
  - split; [lia|]. split; [|reflexivity].
    intros _ E. rewrite E in Hf. discriminate.
  - rewrite Hf. split; [simpl; lia|]. split; [discriminate|congruence].
Qed.

Lemma act_sent p a :
  Page.sent (Page.act p a) = Page.sent p
  \/ (Page.sent (Page.act p a) = Page.sent p ++ [Page.text p]
      /\ trim (Page.text p) <> []).
Proof.
  destruct a as [value| |i r]; cbn [Page.act].
  - now left.
  - unfold Page.click. destruct (Page.loading p); [now left|].
    unfold Page.handleSubmit.
    destruct (trim (Page.text p)) eqn:E; [now left|].
    right. split; [reflexivity|discriminate].
  - unfold Page.respond.
    destruct (nth_error (Page.in_flight p) i); now left.
Qed.

Lemma act_text p a :
  Page.text (Page.act p a) = Page.text p
  \/ a = Page.Change (Page.text (Page.act p a)).
Proof.
  destruct a as [value| |i r]; cbn [Page.act].
  - now right.
  - left. unfold Page.click, Page.handleSubmit.
    destruct (Page.loading p); [reflexivity|].
    destruct (trim (Page.text p)); reflexivity.
  - left. unfold Page.respond.
    destruct (nth_error (Page.in_flight p) i); reflexivity.
Qed.

(** X13. The prompt form posts the text as it was typed, without
    trimming it, and never a blank one: every text it posts is the text
    of the field at the start or a value entered by an edit, and is not
    blank once trimmed. *)
Theorem form_posts_text_as_typed (p : Page.page) (actions : list Page.action) :
  exists more,
    Page.sent (Page.play p actions) = Page.sent p ++ more
    /\ Forall (fun t => trim t <> []
                        /\ (t = Page.text p \/ In (Page.Change t) actions))
         more.
Proof.
  revert p. induction actions as [|a actions IH]; intros p.
  - exists []. split; [now rewrite app_nil_r|constructor].
  - cbn [Page.play fold_left].
    destruct (IH (Page.act p a)) as (more & Hs & Hmore).
    assert (Hmore' : Forall (fun t => trim t <> []
                                      /\ (t = Page.text p
                                          \/ In (Page.Change t) (a :: actions)))
                       more).
    { apply (Forall_impl _ (P := fun t => trim t <> []
                                /\ (t = Page.text (Page.act p a)
                                    \/ In (Page.Change t) actions)));
        [|exact Hmore].
      intros t [Ht [Hor|Hin]]; (split; [exact Ht|]).
      - destruct (act_text p a) as [E|E].
        + left. congruence.
        + right. left. rewrite E. now rewrite Hor.
      - right. now right. }
    destruct (act_sent p a) as [E|[E Hne]].
    + exists more. split; [now rewrite <- E|exact Hmore'].
    + exists (Page.text p :: more). split.
      * change (Page.play (Page.act p a) actions)
          with (fold_left Page.act actions (Page.act p a)) in Hs.
        rewrite Hs, E, <- app_assoc. reflexivity.
      * constructor; [|exact Hmore']. split; [exact Hne|now left].
Qed.

(** X14. What a response does to the page: in every case the form stops
    loading; a failed request logs the error and leaves the shown model
    as it is; a response whose body is not null sets the model to its
    [url], so a body without a usable url takes the viewer off the page;
    a null body throws inside the handler, which is logged, and the
    model stays. *)
Theorem response_updates_viewer (p : Page.page) (i : nat) (t : jstring)
  (r : response) :
  nth_error (Page.in_flight p) i = Some t ->
  Page.loading (Page.respond p i r) = false
  /\ Page.sent (Page.respond p i r) = Page.sent p
  /\ match r with
     | Rejected err =>
         Page.viewer (Page.respond p i r) = Page.viewer p
         /\ Page.errors (Page.respond p i r) = Page.errors p ++ [err]
     | Resolved JNull =>
         Page.viewer (Page.respond p i r) = Page.viewer p
         /\ Page.errors (Page.respond p i r) = Page.errors p ++ [TypeError]
     | Resolved data =>
         Page.viewer (Page.respond p i r)
         = (if truthy (optional_get data (js "url"))
            then optional_get data (js "url") else None)
         /\ Page.errors (Page.respond p i r) = Page.errors p
     end.
Proof.
  intros Hi. unfold Page.respond. rewrite Hi.
  split; [reflexivity|]. split; [reflexivity|].
  destruct r as [data|err]; [|split; reflexivity].
  destruct data; split; reflexivity.
Qed.

Lemma response_updates_viewer_witness :
  Page.viewer
    (Page.play Page.start
       [Page.Change (js "wing"); Page.Click;
        Page.Respond 0 (Resolved (glb "w.glb"))])
  = Some (JStr (js "w.glb"))
  /\ Page.viewer
       (Page.respond
          (Page.play Page.start
             [Page.Change (js "wing"); Page.Click;
              Page.Respond 0 (Resolved (glb "w.glb"));
              Page.Click])
          0 (Resolved (JObj [])))
     = None.
Proof.
  split; [reflexivity|].
  exact (proj1 (proj2 (proj2
    (response_updates_viewer
       (Page.play Page.start
          [Page.Change (js "wing"); Page.Click;
           Page.Respond 0 (Resolved (glb "w.glb"));
           Page.Click])
       0 (js "wing") (Resolved (JObj [])) eq_refl)))).
Defined.

(** ** Reloading from the first render *)

Lemma readHistory_of_written (w : Window) (h : list json) :
  window_defined w = true ->
  getItem_works w = true ->
  forallb well_formed h = true ->
  stored w = Some (JSON_stringify (JArr h)) ->
  readHistory w = Returned (h, []).
Proof.
  intros Hw Hg Hwf Hs. rewrite (readHistory_stored w Hw Hg), Hs.
  pose proof (JSON_parse_stringify (JArr h) Hwf) as Hp.
  destruct (JSON_stringify (JArr h)) as [|c text]; [discriminate|].
  now rewrite Hp.
Qed.

(** X10. Persistence works across a reload: in a browser whose store
    works and is empty or holds what the hook wrote for a history that
    JSON can carry, after any run whose prompts are strings and whose
    response bodies are JSON data with finite numbers and no negative
    zero, a new first render reads back exactly the history the hook had
    at the end of the run. *)
Theorem persistence_across_reload (w : Window) (events : list event) :
  window_defined w = true ->
  getItem_works w = true ->
  setItem_works w = true ->
  stored w = None
  \/ (exists h, forallb well_formed h = true
                /\ stored w = Some (JSON_stringify (JArr h))) ->
  forallb clean_event events = true ->
  exists st0 st' st'',
    mount w = Returned st0
    /\ run st0 events = Returned st'
    /\ mount (window st') = Returned st''
    /\ history st'' = history st'.
Proof.
  intros Hw Hg Hs Hstored Hclean.
  assert (Hread : exists h, forallb well_formed h = true
                            /\ readHistory w = Returned (h, [])).
  { destruct Hstored as [Hnone|(h & Hwf & Hsome)].
    - exists []. split; [reflexivity|].
      now rewrite (readHistory_stored w Hw Hg), Hnone.
    - exists h. split; [exact Hwf|].
      now apply readHistory_of_written. }
  destruct Hread as (h & Hwf & Hread).
  unfold mount at 1. rewrite Hread. cbn [bind fst snd].
  eexists.
  destruct (reload_restores_history
              {| window := w; queryData := Some h; selectedId := None;
                 mutations := []; currentMutation := None; posted := [];
                 console := [] |} events) as (st' & st'' & Hrun & Hm & Hh).
  { repeat split; try assumption. now exists []. }
  { exact Hclean. }
  exists st', st''. split; [reflexivity|]. repeat split; assumption.
Qed.

Lemma persistence_across_reload_witness :
  exists st0 st' st'',
    mount (browser (Some (JSON_stringify (JArr [model_value (sample_model "m0")]))))
    = Returned st0
    /\ run st0
         [GenerateModel (js " wing ");
          Settle 0 (Resolved (model_value rich_model)) (clock_uuid "u1");
          GenerateModel (js "fin");
          Settle 1 (Resolved (glb "f.glb")) (clock_ms 1762041600000)]
       = Returned st'
    /\ mount (window st') = Returned st''
    /\ history st'' = history st'.
Proof.
  apply (persistence_across_reload
           (browser (Some (JSON_stringify (JArr [model_value (sample_model "m0")]))))
           [GenerateModel (js " wing ");
            Settle 0 (Resolved (model_value rich_model)) (clock_uuid "u1");
            GenerateModel (js "fin");
            Settle 1 (Resolved (glb "f.glb")) (clock_ms 1762041600000)]);
    try (vm_compute; reflexivity).
  right. exists [model_value (sample_model "m0")].
  split; [vm_compute; reflexivity|reflexivity].
Defined.

(* ================================================================== *)
(** * Further properties of runs *)

Lemma step_creates st e :
  e <> ClearHistory ->
  exists st',
    step st e = Returned st'
    /\ history st' = with_new (creates st e) (history st).
Proof.
  intros He. destruct e as [prompt|id r clock|id| |]; try contradiction;
    cbn [step creates].
  - eexists. split; [reflexivity|].
    unfold generateModel. destruct (mutationFn_request prompt); reflexivity.
  - unfold settle.
    destruct (nth_error (mutations st) id) as [m|] eqn:Hm;
      [|eexists; split; reflexivity].
    destruct (mutation_status m) eqn:Hs; try (eexists; split; reflexivity).
    destruct (mutationFn_result (variables m) r) as [result|err] eqn:Hr;
      [|eexists; split; reflexivity].
    destruct (settle_success st id r clock m result Hm Hs Hr)
      as (st1 & Hon & _ & Hh & _).
    rewrite Hon. cbn [bind]. eexists. split; [reflexivity|exact Hh].
  - eexists. split; reflexivity.
  - eexists. split; reflexivity.
Qed.

Lemma with_new_app news1 news0 h :
  with_new news1 (with_new news0 h) = with_new (news1 ++ news0) h.
Proof.
  destruct news1 as [|x news1]; [reflexivity|].
  destruct news0 as [|y news0].
  - now rewrite app_nil_r.
  - unfold with_new. cbn [app].
    change (x :: news1 ++ firstn 20 (y :: news0 ++ h))
      with ((x :: news1) ++ firstn 20 ((y :: news0) ++ h)).
    rewrite firstn_app_firstn. now rewrite <- app_assoc.
Qed.

(** X15. Without a clear, however calls and responses interleave, the
    records already in the history are never changed or reordered and
    leave only at the tail: the history at the end is the records the
    run created (one for each response to a pending call that had a
    usable url, newest first) followed by the history at the start, cut
    to 20 elements; when the run created no record it is the history at
    the start, untouched. *)
Theorem records_leave_at_tail (st : state) (events : list event) :
  ~ In ClearHistory events ->
  exists st',
    run st events = Returned st'
    /\ history st' = with_new (created st events) (history st).
Proof.
  revert st. induction events as [|e events IH]; intros st Hnc.
  - now exists st.
  - destruct (step_creates st e) as (st1 & Hstep & Hh1).
    { intros ->. apply Hnc. now left. }
    destruct (IH st1) as (st' & Hrun & Hh).
    { intros Hin. apply Hnc. now right. }
    exists st'. cbn [run created]. rewrite Hstep. cbn [bind].
    split; [exact Hrun|]. now rewrite Hh, Hh1, with_new_app.
Qed.

Lemma records_leave_at_tail_witness :
  exists st' entryA entryB,
    run (started (browser None) [model_value (sample_model "m0")])
      [GenerateModel (js "wing A"); GenerateModel (js "wing B");
       Settle 1 (Resolved (glb "b.glb")) (clock_uuid "uB");
       Settle 1 (Resolved (glb "b.glb")) (clock_uuid "uC");
       Settle 0 (Resolved (glb "a.glb")) (clock_uuid "uA")] = Returned st'
    /\ history st' = [entryA; entryB; model_value (sample_model "m0")].
Proof.
  destruct (records_leave_at_tail
              (started (browser None) [model_value (sample_model "m0")])
              [GenerateModel (js "wing A"); GenerateModel (js "wing B");
               Settle 1 (Resolved (glb "b.glb")) (clock_uuid "uB");
               Settle 1 (Resolved (glb "b.glb")) (clock_uuid "uC");
               Settle 0 (Resolved (glb "a.glb")) (clock_uuid "uA")])
    as (st' & Hrun & Hh).
  { intros [H|[H|[H|[H|[H|[]]]]]]; discriminate H. }
  exists st'. eexists. eexists. split; [exact Hrun|].
  rewrite Hh. vm_compute. reflexivity.
Defined.

Lemma step_keeps_error st e err :
  error st = Some err ->
  moves_observer e = false ->
  exists st', step st e = Returned st' /\ error st' = Some err.
Proof.
  intros Herr He.
  destruct e as [prompt|id r clock|id| |]; try discriminate; cbn [step].
  - unfold error, current_status in Herr.
    destruct (currentMutation st) as [cur|] eqn:Hcur; [|discriminate].
    destruct (nth_error (mutations st) cur) as [mc|] eqn:Hmc;
      [|discriminate].
    cbn [option_map] in Herr.
    destruct (mutation_status mc) eqn:Hsc; try discriminate.
    injection Herr as ->.
    assert (Hsame : forall st', current_status st' = current_status st ->
                                error st' = Some err).
    { intros st' E. unfold error. rewrite E. unfold current_status.
      now rewrite Hcur, Hmc; cbn [option_map]; rewrite Hsc. }
    destruct (nth_error (mutations st) id) as [m|] eqn:Hm.
    + destruct (mutation_status m) eqn:Hs.
      * destruct (settle_pending st id r clock m Hm Hs)
          as (st' & s & Hset & Hms & Hc & _).
        exists st'. split; [exact Hset|]. apply Hsame.
        apply (current_status_other st st' id s Hms Hc).
        rewrite Hcur. intros [= ->]. congruence.
      * exists st. unfold settle. rewrite Hm, Hs.
        split; [reflexivity|now apply Hsame].
      * exists st. unfold settle. rewrite Hm, Hs.
        split; [reflexivity|now apply Hsame].
    + exists st. unfold settle. rewrite Hm.
      split; [reflexivity|now apply Hsame].
  - eexists. split; [reflexivity|exact Herr].
  - unfold clearHistory.
    destruct (persistHistory_returns (window st) []) as (w' & ws & Hp).
    rewrite Hp. cbn [bind]. eexists. split; [reflexivity|exact Herr].
Qed.

(** X16. An error stays on display until the next call or a reset:
    selections, clears and the late responses of earlier calls, failed
    or successful, do not remove or replace it. *)
Theorem error_stays_until_next_call (st : state) (events : list event)
  (err : exn) :
  error st = Some err ->
  existsb moves_observer events = false ->
  exists st', run st events = Returned st' /\ error st' = Some err.
Proof.
  revert st. induction events as [|e events IH]; intros st Herr Hev.
  - now exists st.
  - cbn [existsb] in Hev. apply orb_false_iff in Hev as [He Hev].
    destruct (step_keeps_error st e err Herr He) as (st1 & Hstep & Herr1).
    destruct (IH st1 Herr1 Hev) as (st' & Hrun & Herr').
    exists st'. cbn [run]. rewrite Hstep. split; [exact Hrun|exact Herr'].
Qed.

Lemma error_stays_until_next_call_witness :
  exists st',
    run (generateModel (generateModel (started (browser None) []) (js "wing"))
           (js "  "))
      [Settle 0 (Resolved (glb "w.glb")) (clock_uuid "u1");
       SelectModel (js "u1"); ClearHistory] = Returned st'
    /\ error st' = Some EmptyPrompt.
Proof.
  apply (error_stays_until_next_call
           (generateModel (generateModel (started (browser None) []) (js "wing"))
              (js "  "))
           [Settle 0 (Resolved (glb "w.glb")) (clock_uuid "u1");
            SelectModel (js "u1"); ClearHistory] EmptyPrompt);
    reflexivity.
Defined.
